(** * Crawl task orchestrator: registry, result store, pagination, rate limiter

    A shallow embedding of

      - [app/spiders/spider_runner.py]  (class [AsyncSpiderRunner]),
      - [app/pipelines.py]              (the three item pipelines),
      - [app/api/endpoints/spiders.py]  ([get_task_status], [get_crawl_results],
                                         [stop_task]),
      - [app/api/dependencies.py]       (class [RateLimiter], [get_redis_client]),
      - [app/spiders/base_spider.py]    (the item counter of [BaseSpider]),
      - [app/core/resources.py]         (class [AsyncResourceManager]),
      - [app/api/endpoints/monitoring.py] (the task counts of [get_metrics]),

    together with the part of Redis these functions talk to.  Python
    dictionaries keyed by strings are [gmap string _]; optional dictionary
    keys are [option] fields; exceptions are the [Raise] case of [outcome];
    coroutines handed to [asyncio.create_task] sit in an explicit ready queue
    until the event loop runs them. *)

From stdpp Require Import gmap strings list fin_maps.
From Stdlib Require Import ZArith Lia.

(** ** Python outcomes *)

(** [Exception] stands for every exception class that the source only ever
    catches through [except Exception] (KeyError, TypeError, RuntimeError,
    redis ConnectionError and ResponseError, ...); [exn_str] is [str(e)]. *)
Inductive exn :=
| Exception (msg : string)
| HTTPException (status_code : Z) (detail : string)
| DropItem (msg : string).

Definition exn_str (e : exn) : string :=
  match e with
  | Exception msg => msg
  | HTTPException _ detail => detail
  | DropItem msg => msg
  end.

Inductive outcome (A : Type) :=
| Return (a : A)
| Raise (e : exn).
Arguments Return {A} a.
Arguments Raise {A} e.

Definition raised {A} (o : outcome A) : bool :=
  match o with Return _ => false | Raise _ => true end.

(** ** The cache: one Redis database with key expiry *)

Module Redis.

Local Open Scope Z_scope.

(** The two kinds of value the program stores: integer strings (written by
    SETEX and INCR) and lists of strings (written by RPUSH). *)
Inductive value :=
| VInt (n : Z)
| VList (l : list string).

(** [expire_at] is the absolute server time (seconds) after which the key
    is gone; [None] is a key without a time to live. *)
Record entry := Entry { val : value; expire_at : option Z }.

(** [available = false] is the cache being unavailable: every command,
    and [Pipeline.execute], raises. *)
Record t := Server { available : bool; db : gmap string entry }.

Definition unavailable_error : exn := Exception "Error connecting to Redis".
Definition wrongtype_error : exn :=
  Exception "WRONGTYPE Operation against a key holding the wrong kind of value".

Definition not_an_integer_error : exn :=
  Exception "value is not an integer or out of range".

(** The server deletes a key once its clock has passed the deadline; at
    the deadline itself the key is still there. *)
Definition live (now : Z) (e : entry) : bool :=
  match expire_at e with
  | None => true
  | Some deadline => bool_decide (now ≤ deadline)
  end.

(** An integer argument of a command has to fit a signed 64-bit word. *)
Definition int64 (n : Z) : bool := (- 2 ^ 63 <=? n) && (n <? 2 ^ 63).

(** What a command sees under [k] at server time [now]. *)
Definition find (now : Z) (r : t) (k : string) : option entry :=
  match db r !! k with
  | Some e => if live now e then Some e else None
  | None => None
  end.

Definition put (r : t) (k : string) (e : entry) : t :=
  {| available := available r; db := <[k := e]> (db r) |}.

Definition set_available (b : bool) (r : t) : t :=
  {| available := b; db := db r |}.

(** GET *)
Definition get (now : Z) (r : t) (k : string) : outcome (option Z) :=
  if available r then
    match find now r k with
    | None => Return None
    | Some (Entry (VInt n) _) => Return (Some n)
    | Some (Entry (VList _) _) => Raise wrongtype_error
    end
  else Raise unavailable_error.

(** SETEX key seconds value *)
Definition setex (now : Z) (r : t) (k : string) (seconds n : Z) : outcome unit * t :=
  if available r then
    (Return (), put r k (Entry (VInt n) (Some (now + seconds))))
  else (Raise unavailable_error, r).

(** INCR: a missing key counts from 0 and gets no time to live; an
    existing key keeps the one it has. *)
Definition incr (now : Z) (r : t) (k : string) : outcome Z * t :=
  if available r then
    match find now r k with
    | None => (Return 1, put r k (Entry (VInt 1) None))
    | Some (Entry (VInt n) ex) => (Return (n + 1), put r k (Entry (VInt (n + 1)) ex))
    | Some (Entry (VList _) _) => (Raise wrongtype_error, r)
    end
  else (Raise unavailable_error, r).

(** The slice LRANGE start stop takes out of a list, both ends inclusive,
    negative indices counting from the tail. *)
Definition range (l : list string) (start stop : Z) : list string :=
  let llen := Z.of_nat (length l) in
  let start := if start <? 0 then llen + start else start in
  let stop := if stop <? 0 then llen + stop else stop in
  let start := if start <? 0 then 0 else start in
  if (stop <? start) || (llen <=? start) then []
  else
    let stop := if llen <=? stop then llen - 1 else stop in
    take (Z.to_nat (stop - start + 1)) (drop (Z.to_nat start) l).

(** LRANGE: the server parses both indices before it looks the key up. *)
Definition lrange (now : Z) (r : t) (k : string) (start stop : Z) : outcome (list string) :=
  if available r then
    if negb (int64 start && int64 stop) then Raise not_an_integer_error
    else
      match find now r k with
      | None => Return []
      | Some (Entry (VList l) _) => Return (range l start stop)
      | Some (Entry (VInt _) _) => Raise wrongtype_error
      end
  else Raise unavailable_error.

(** LLEN *)
Definition llen (now : Z) (r : t) (k : string) : outcome Z :=
  if available r then
    match find now r k with
    | None => Return 0
    | Some (Entry (VList l) _) => Return (Z.of_nat (length l))
    | Some (Entry (VInt _) _) => Raise wrongtype_error
    end
  else Raise unavailable_error.

(** The commands [store_crawl_results] queues on a pipeline. *)
Inductive command :=
| RPUSH (k : string) (v : string)
| EXPIRE (k : string) (seconds : Z).

(** One queued command applied by the server; [Some e] is the error reply. *)
Definition apply (now : Z) (c : command) (r : t) : option exn * t :=
  match c with
  | RPUSH k v =>
      match find now r k with
      | None => (None, put r k (Entry (VList [v]) None))
      | Some (Entry (VList l) ex) => (None, put r k (Entry (VList (l ++ [v])) ex))
      | Some (Entry (VInt _) _) => (Some wrongtype_error, r)
      end
  | EXPIRE k seconds =>
      match find now r k with
      | None => (None, r)
      | Some (Entry v _) => (None, put r k (Entry v (Some (now + seconds))))
      end
  end.

(** The server runs every queued command in order; the first error reply,
    if any, is what the client raises afterwards. *)
Fixpoint apply_all (now : Z) (cs : list command) (r : t) : option exn * t :=
  match cs with
  | [] => (None, r)
  | c :: cs =>
      let '(e, r) := apply now c r in
      let '(e', r) := apply_all now cs r in
      (match e with Some _ => e | None => e' end, r)
  end.

(** [Pipeline.execute()] *)
Definition execute (now : Z) (cs : list command) (r : t) : outcome unit * t :=
  if available r then
    match apply_all now cs r with
    | (None, r) => (Return (), r)
    | (Some e, r) => (Raise e, r)
    end
  else (Raise unavailable_error, r).

(** The list a command finds under [k]: a missing key reads as the empty
    list; [None] when the key holds an integer. *)
Definition list_at (now : Z) (r : t) (k : string) : option (list string) :=
  match find now r k with
  | None => Some []
  | Some (Entry (VList l) _) => Some l
  | Some (Entry (VInt _) _) => None
  end.

(** The key a queued command works on. *)
Definition command_key (c : command) : string :=
  match c with
  | RPUSH k _ => k
  | EXPIRE k _ => k
  end.

End Redis.

(** ** [app/spiders/spider_runner.py] *)

Module SpiderRunner.

(** The status strings.  [app/models/schemas.py] declares "pending",
    "running", "completed", "failed" and "stopped" in [SpiderStatus]; the
    runner additionally writes "stopping". *)
Inductive SpiderStatus :=
| PENDING | RUNNING | STOPPING | COMPLETED | FAILED | STOPPED.

Definition status_str (st : SpiderStatus) : string :=
  match st with
  | PENDING => "pending"
  | RUNNING => "running"
  | STOPPING => "stopping"
  | COMPLETED => "completed"
  | FAILED => "failed"
  | STOPPED => "stopped"
  end.

#[export] Instance SpiderStatus_eq_dec : EqDecision SpiderStatus.
Proof. solve_decision. Defined.

(** The terminal states of the specification. *)
Definition terminal (st : SpiderStatus) : bool :=
  match st with
  | COMPLETED | FAILED | STOPPED => true
  | PENDING | RUNNING | STOPPING => false
  end.

(** [status in ('stopping', 'stopped')] *)
Definition stop_requested (st : SpiderStatus) : bool :=
  match st with
  | STOPPING | STOPPED => true
  | _ => false
  end.

(** What [stop_task] reads of a crawler in [self.runner.crawlers]:
    [getattr(crawler.spider, 'task_id', None)] and [crawler.spider.name]. *)
Record spider := Spider { name : string; task_id : option string }.
Record crawler := Crawler { crawler_spider : option spider }.

Definition crawler_task_id (c : crawler) : option string :=
  match crawler_spider c with
  | Some sp => task_id sp
  | None => None
  end.

(** Python truthiness of an [Any] that is [None] or a [str]. *)
Definition truthy (result : option string) : bool :=
  match result with
  | None => false
  | Some msg => negb (bool_decide (msg = ""))
  end.

Section Runner.

(** [pydict] is [Dict[str, Any]] (keyword arguments, scraped items),
    [time] a reading of the event loop's clock; both are only stored.
    [json_dumps] is [json.dumps], [None] when it raises; [has_key d k] is
    [k in d].  The [kwargs] of [run_spider] never hold "self" or
    "spider_name": Python binds those to its parameters of that name. *)
Context {pydict time : Type}.
Context (json_dumps : pydict → option string).
Context (has_key : pydict → string → bool).

(** One value of [active_tasks]: the keys "end_time", "failure_reason"
    and "items_count" are absent until first written. *)
Record task := Task {
  spider_name : string;
  status : SpiderStatus;
  kwargs : pydict;
  start_time : time;
  items : list pydict;
  end_time : option time;
  failure_reason : option string;
  items_count : option nat
}.

(** The coroutines the runner hands to [asyncio.create_task]. *)
Inductive coroutine :=
| run_spider_task_co (task_id spider_name : string) (kwargs : pydict)
| update_task_status_co (task_id : string) (status : SpiderStatus) (result : option string).

Definition co_task_id (co : coroutine) : string :=
  match co with
  | run_spider_task_co task_id _ _ => task_id
  | update_task_status_co task_id _ _ => task_id
  end.

(** [self.active_tasks], the event loop's queue of created tasks that
    have not run yet, and the task ids of the [stop_task] calls suspended
    at [await d]. *)
Record AsyncSpiderRunner := Runner {
  active_tasks : gmap string task;
  ready : list coroutine;
  suspended_stops : list string
}.

(** [__init__] *)
Definition init : AsyncSpiderRunner :=
  {| active_tasks := ∅; ready := []; suspended_stops := [] |}.

Definition with_tasks (m : gmap string task) (s : AsyncSpiderRunner) : AsyncSpiderRunner :=
  {| active_tasks := m; ready := ready s; suspended_stops := suspended_stops s |}.

(** [asyncio.create_task(co)] *)
Definition create_task (co : coroutine) (s : AsyncSpiderRunner) : AsyncSpiderRunner :=
  {| active_tasks := active_tasks s; ready := ready s ++ [co];
     suspended_stops := suspended_stops s |}.

Definition set_status (st : SpiderStatus) (t : task) : task :=
  {| spider_name := spider_name t; status := st; kwargs := kwargs t;
     start_time := start_time t; items := items t; end_time := end_time t;
     failure_reason := failure_reason t; items_count := items_count t |}.

Definition set_end_time (now : time) (t : task) : task :=
  {| spider_name := spider_name t; status := status t; kwargs := kwargs t;
     start_time := start_time t; items := items t; end_time := Some now;
     failure_reason := failure_reason t; items_count := items_count t |}.

Definition set_failure_reason (reason : option string) (t : task) : task :=
  {| spider_name := spider_name t; status := status t; kwargs := kwargs t;
     start_time := start_time t; items := items t; end_time := end_time t;
     failure_reason := reason; items_count := items_count t |}.

Definition set_items_count (n : nat) (t : task) : task :=
  {| spider_name := spider_name t; status := status t; kwargs := kwargs t;
     start_time := start_time t; items := items t; end_time := end_time t;
     failure_reason := failure_reason t; items_count := Some n |}.

(** The TypeError of the call [self._run_spider_task(task_id, spider_name,
    **kwargs)] when [kwargs] has a key "task_id" of its own. *)
Definition multiple_values_error : exn :=
  Exception "AsyncSpiderRunner._run_spider_task() got multiple values for argument 'task_id'".

(** [run_spider]; [uuid4] is the string [str(uuid.uuid4())] drew.  The
    record is written before the coroutine object is made, so a call that
    raises there leaves the record behind and creates no task. *)
Definition run_spider (s : AsyncSpiderRunner) (uuid4 : string)
    (spider_name : string) (kwargs : pydict) (now : time)
    : outcome string * AsyncSpiderRunner :=
  let task_id := uuid4 in
  let s := with_tasks (<[task_id :=
             {| spider_name := spider_name; status := RUNNING; kwargs := kwargs;
                start_time := now; items := []; end_time := None;
                failure_reason := None; items_count := None |}]> (active_tasks s)) s in
  if has_key kwargs "task_id" then (Raise multiple_values_error, s)
  else
    let s := create_task (run_spider_task_co task_id spider_name kwargs) s in
    (Return task_id, s).

(** [_update_task_status] *)
Definition _update_task_status (s : AsyncSpiderRunner) (task_id : string)
    (status : SpiderStatus) (result : option string) (now : time) : AsyncSpiderRunner :=
  match active_tasks s !! task_id with
  | Some t =>
      let t := set_status status t in
      let t := set_end_time now t in
      let t := if bool_decide (status = FAILED) && truthy result
               then set_failure_reason result t else t in
      with_tasks (<[task_id := t]> (active_tasks s)) s
  | None => s
  end.

(** [_handle_spider_exception] *)
Definition _handle_spider_exception (s : AsyncSpiderRunner) (task_id : string)
    (error : string) (now : time) : AsyncSpiderRunner :=
  _update_task_status s task_id FAILED (Some error) now.

(** [_run_spider_task]; [crawl] is what [self.runner.crawl(...)] did:
    it returned the Deferred (to which the two callbacks are then added)
    or raised. *)
Definition _run_spider_task (s : AsyncSpiderRunner) (task_id spider_name : string)
    (kwargs : pydict) (crawl : outcome unit) (now : time) : AsyncSpiderRunner :=
  match crawl with
  | Return _ => s
  | Raise e => _handle_spider_exception s task_id (exn_str e) now
  end.

(** The guard shared by both callbacks. *)
Definition being_stopped (s : AsyncSpiderRunner) (task_id : string) : bool :=
  match active_tasks s !! task_id with
  | Some t => stop_requested (status t)
  | None => false
  end.

(** [_on_spider_success] *)
Definition _on_spider_success (s : AsyncSpiderRunner) (result : option string)
    (task_id : string) : AsyncSpiderRunner :=
  if being_stopped s task_id then s
  else create_task (update_task_status_co task_id COMPLETED result) s.

(** [_on_spider_error]; [failure_value] is [str(failure.value)]. *)
Definition _on_spider_error (s : AsyncSpiderRunner) (failure_value : string)
    (task_id : string) : AsyncSpiderRunner :=
  if being_stopped s task_id then s
  else
    let error_msg := failure_value in
    create_task (update_task_status_co task_id FAILED (Some error_msg)) s.

(** What one call of [store_crawl_results] did: it always returns
    [None]; [logged] is the exception its handler passed to
    [logger.error], if any. *)
Record stored := Stored {
  returned : outcome unit;
  logged : option exn;
  stored_runner : AsyncSpiderRunner;
  stored_redis : Redis.t
}.

(** [store_crawl_results] *)
Definition store_crawl_results (s : AsyncSpiderRunner) (r : Redis.t) (redis_now : Z)
    (task_id : string) (items : list pydict) : stored :=
  let redis_key := "crawl_results:" +:+ task_id in
  match mapM json_dumps items with
  | None => Stored (Return ()) (Some (Exception "Object is not JSON serializable")) s r
  | Some payloads =>
      let pipe := (Redis.RPUSH redis_key <$> payloads) ++ [Redis.EXPIRE redis_key 3600] in
      match Redis.execute redis_now pipe r with
      | (Raise e, r) => Stored (Return ()) (Some e) s r
      | (Return _, r) =>
          match active_tasks s !! task_id with
          | None => Stored (Return ()) (Some (Exception task_id)) s r
          | Some t =>
              Stored (Return ()) None
                (with_tasks (<[task_id := set_items_count (length items) t]> (active_tasks s)) s) r
          end
      end
  end.

(** [get_task_status] *)
Definition get_task_status (s : AsyncSpiderRunner) (task_id : string) : option task :=
  active_tasks s !! task_id.

(** [get_all_tasks] *)
Definition get_all_tasks (s : AsyncSpiderRunner) : gmap string task :=
  active_tasks s.

(** The search loop of [stop_task] over [self.runner.crawlers]. *)
Definition find_crawler (crawlers : list crawler) (task_id : string) : option crawler :=
  List.find (λ c, bool_decide (crawler_task_id c = Some task_id)) crawlers.

(** [stop_task] runs in two pieces: up to [await d], and from the
    [finally] block on. *)
Inductive stop_progress :=
| Finished (ret : bool)
| AwaitingStop (target_crawler : crawler).

Definition update_task (task_id : string) (f : task → task)
    (s : AsyncSpiderRunner) : AsyncSpiderRunner :=
  with_tasks (alter f task_id (active_tasks s)) s.

Definition stop_task (s : AsyncSpiderRunner) (crawlers : list crawler)
    (task_id : string) (now : time) : stop_progress * AsyncSpiderRunner :=
  match active_tasks s !! task_id with
  | None => (Finished false, s)
  | Some t =>
      if negb (bool_decide (status t = RUNNING)) then (Finished false, s)
      else
        match find_crawler crawlers task_id with
        | Some target_crawler =>
            let s := update_task task_id (set_status STOPPING) s in
            (AwaitingStop target_crawler,
             {| active_tasks := active_tasks s; ready := ready s;
                suspended_stops := task_id :: suspended_stops s |})
        | None =>
            let s := update_task task_id (set_status STOPPED) s in
            let s := update_task task_id (set_end_time now) s in
            (Finished true, s)
        end
  end.

(** The Deferred [d] that [target_crawler.stop()] returns, as [await d]
    finds it: it has fired already, with a result or a failure, or it has
    not. *)
Inductive deferred :=
| fired (result : outcome unit)
| unfired.

Definition bad_yield_error : exn := Exception "Task got bad yield: <Deferred>".

(** [await d] in a coroutine that an asyncio task runs.  A Deferred that
    has fired hands over its result, or raises its failure, at once.  One
    that has not fired yields itself to the task, which can only wait for
    asyncio futures and resumes the coroutine with a RuntimeError. *)
Definition await_deferred (d : deferred) : outcome unit :=
  match d with
  | fired result => result
  | unfired => Raise bad_yield_error
  end.

(** The rest of [stop_task] once [await d] is over: [teardown] is what
    [await d] gave, see [await_deferred].  The [finally] block runs either
    way; an exception then propagates to the caller. *)
Definition stop_task_resume (s : AsyncSpiderRunner) (task_id : string)
    (teardown : outcome unit) (now : time) : outcome bool * AsyncSpiderRunner :=
  let s := update_task task_id (set_status STOPPED) s in
  let s := update_task task_id (set_end_time now) s in
  match teardown with
  | Return _ => (Return true, s)
  | Raise e => (Raise e, s)
  end.

Fixpoint remove_first (task_id : string) (l : list string) : list string :=
  match l with
  | [] => []
  | x :: l => if bool_decide (x = task_id) then l else x :: remove_first task_id l
  end.

(** *** The orchestrator as a transition system *)

Record world := World { runner : AsyncSpiderRunner; redis : Redis.t }.

Definition init_world : world :=
  {| runner := init; redis := Redis.Server true ∅ |}.

(** Everything that can happen to the registry: the entry points being
    called, the event loop running the next created task, the job
    runtime firing a callback or finishing a teardown, and the cache
    going away or coming back. *)
Inductive event :=
| run_spider_ev (uuid4 spider_name : string) (kwargs : pydict) (now : time)
| loop_step_ev (crawl : outcome unit) (now : time)
| spider_success_ev (result : option string) (task_id : string)
| spider_error_ev (failure_value : string) (task_id : string)
| stop_task_ev (crawlers : list crawler) (task_id : string) (now : time)
| stop_resume_ev (task_id : string) (teardown : outcome unit) (now : time)
| store_crawl_results_ev (task_id : string) (items : list pydict) (redis_now : Z)
| get_task_status_ev (task_id : string)
| get_all_tasks_ev
| redis_available_ev (b : bool).

Definition with_runner (s : AsyncSpiderRunner) (w : world) : world :=
  {| runner := s; redis := redis w |}.

(** The event loop runs the oldest created task to completion (neither
    coroutine suspends). *)
Definition loop_step (s : AsyncSpiderRunner) (crawl : outcome unit) (now : time)
    : AsyncSpiderRunner :=
  match ready s with
  | [] => s
  | co :: rest =>
      let s := {| active_tasks := active_tasks s; ready := rest;
                  suspended_stops := suspended_stops s |} in
      match co with
      | run_spider_task_co task_id spider_name kwargs =>
          _run_spider_task s task_id spider_name kwargs crawl now
      | update_task_status_co task_id status result =>
          _update_task_status s task_id status result now
      end
  end.

Definition step (ev : event) (w : world) : world :=
  match ev with
  | run_spider_ev uuid4 spider_name kwargs now =>
      with_runner (run_spider (runner w) uuid4 spider_name kwargs now).2 w
  | loop_step_ev crawl now =>
      with_runner (loop_step (runner w) crawl now) w
  | spider_success_ev result task_id =>
      with_runner (_on_spider_success (runner w) result task_id) w
  | spider_error_ev failure_value task_id =>
      with_runner (_on_spider_error (runner w) failure_value task_id) w
  | stop_task_ev crawlers task_id now =>
      with_runner (stop_task (runner w) crawlers task_id now).2 w
  | stop_resume_ev task_id teardown now =>
      if bool_decide (task_id ∈ suspended_stops (runner w)) then
        let s := (stop_task_resume (runner w) task_id teardown now).2 in
        with_runner {| active_tasks := active_tasks s; ready := ready s;
                       suspended_stops := remove_first task_id (suspended_stops s) |} w
      else w
  | store_crawl_results_ev task_id items redis_now =>
      let res := store_crawl_results (runner w) (redis w) redis_now task_id items in
      {| runner := stored_runner res; redis := stored_redis res |}
  | get_task_status_ev _ => w
  | get_all_tasks_ev => w
  | redis_available_ev b =>
      {| runner := runner w; redis := Redis.set_available b (redis w) |}
  end.

Fixpoint run (evs : list event) (w : world) : world :=
  match evs with
  | [] => w
  | ev :: evs => run evs (step ev w)
  end.

(** The status the registry shows for [task_id]. *)
Definition status_of (w : world) (task_id : string) : option SpiderStatus :=
  status <$> get_task_status (runner w) task_id.

(** *** Vocabulary for the properties of the registry *)

(** The record [_update_task_status] leaves under [task_id]. *)
Definition updated (st : SpiderStatus) (result : option string) (now : time) (t : task) : task :=
  let t := set_end_time now (set_status st t) in
  if bool_decide (st = FAILED) && truthy result then set_failure_reason result t else t.

Definition fresh_task (spider_name : string) (kwargs : pydict) (now : time) : task :=
  {| spider_name := spider_name; status := RUNNING; kwargs := kwargs; start_time := now;
     items := []; end_time := None; failure_reason := None; items_count := None |}.

(** The ways one step of the system can change the record of a task. *)
Inductive task_moves (s : AsyncSpiderRunner) (k : string) (t : task) : task → Prop :=
| moves_not : task_moves s k t t
| moves_counted n : task_moves s k t (set_items_count n t)
| moves_updated st result now rest :
    ready s = update_task_status_co k st result :: rest →
    task_moves s k t (updated st result now t)
| moves_launch_failed name kw error now rest :
    ready s = run_spider_task_co k name kw :: rest →
    task_moves s k t (updated FAILED (Some error) now t)
| moves_stopping :
    status t = RUNNING → task_moves s k t (set_status STOPPING t)
| moves_stopped_directly now :
    status t = RUNNING → task_moves s k t (set_end_time now (set_status STOPPED t))
| moves_stop_finalized now :
    k ∈ suspended_stops s → task_moves s k t (set_end_time now (set_status STOPPED t)).

(** The coroutine an event hands to [asyncio.create_task], if any. *)
Definition schedules (ev : event) (s : AsyncSpiderRunner) (co : coroutine) : Prop :=
  match ev with
  | run_spider_ev uuid4 name kw _ =>
      has_key kw "task_id" = false ∧ co = run_spider_task_co uuid4 name kw
  | spider_success_ev result tid =>
      being_stopped s tid = false ∧ co = update_task_status_co tid COMPLETED result
  | spider_error_ev failure tid =>
      being_stopped s tid = false ∧ co = update_task_status_co tid FAILED (Some failure)
  | _ => False
  end.

Definition end_time_iff_terminal (t : task) : Prop :=
  is_Some (end_time t) ↔ terminal (status t) = true.

(** Every update waiting in the ready queue carries a terminal status. *)
Definition updates_terminal (s : AsyncSpiderRunner) : Prop :=
  ∀ tid st result, update_task_status_co tid st result ∈ ready s → terminal st = true.

Definition registry_inv (s : AsyncSpiderRunner) : Prop :=
  (∀ k t, active_tasks s !! k = Some t → end_time_iff_terminal t) ∧ updates_terminal s.

(** [run_spider] drawing the id [tid] again would replace the record. *)
Definition redraws (tid : string) (ev : event) : bool :=
  match ev with
  | run_spider_ev uuid4 _ _ _ => bool_decide (uuid4 = tid)
  | _ => false
  end.

(** No coroutine created earlier for [tid] is still waiting to run. *)
Definition nothing_pending (tid : string) (s : AsyncSpiderRunner) : Prop :=
  ∀ co, co ∈ ready s → co_task_id co ≠ tid.

(** The status of [tid] satisfies [P] and nothing created for [tid] is
    still to run. *)
Definition held (P : SpiderStatus → bool) (tid : string) (s : AsyncSpiderRunner) : Prop :=
  (∃ t, active_tasks s !! tid = Some t ∧ P (status t) = true)
  ∧ nothing_pending tid s.

(** A stop has been requested for [tid]. *)
Definition stop_in_force : string → AsyncSpiderRunner → Prop := held stop_requested.


(** The statuses and failure reasons of reachable records. *)
Definition record_sound (t : task) : Prop :=
  status t ≠ PENDING ∧ (is_Some (failure_reason t) → terminal (status t) = true).

End Runner.

End SpiderRunner.


(** ** [app/pipelines.py]: [StoragePipeline] *)

Module Pipelines.

Section StoragePipeline.

Context {pydict time : Type}.
Context (json_dumps : pydict → option string).

Record StoragePipeline := Pipeline { stored_count : nat }.

(** What [process_item] reads of the spider: [None] is a missing attribute
    ([hasattr] is false). *)
Record spider := Spider {
  stats : option (gmap string nat);
  task_id : option string
}.

Record processed := Processed {
  result : outcome pydict;
  pipeline : StoragePipeline;
  processed_spider : spider;
  processed_runner : @SpiderRunner.AsyncSpiderRunner pydict time;
  processed_redis : Redis.t
}.

(** [StoragePipeline.process_item]; [item] is [adapter.asdict()]. *)
Definition process_item (self : StoragePipeline) (item : pydict) (sp : spider)
    (s : @SpiderRunner.AsyncSpiderRunner pydict time) (r : Redis.t) (redis_now : Z) : processed :=
  let self := {| stored_count := stored_count self + 1 |} in
  let sp := match stats sp with
            | Some st => {| stats := Some (<["stored_count" := stored_count self]> st);
                            task_id := task_id sp |}
            | None => sp
            end in
  match task_id sp with
  | Some tid =>
      let res := SpiderRunner.store_crawl_results json_dumps s r redis_now tid [item] in
      match SpiderRunner.returned res with
      | Return _ =>
          Processed (Return item) self sp (SpiderRunner.stored_runner res)
            (SpiderRunner.stored_redis res)
      | Raise e =>
          Processed (Raise (DropItem ("存储失败: " +:+ exn_str e))) self sp
            (SpiderRunner.stored_runner res) (SpiderRunner.stored_redis res)
      end
  | None => Processed (Return item) self sp s r
  end.

(** The job runtime pushing the scraped items of one task through the
    pipeline, one call of [process_item] each: the answers, and the pipeline,
    spider, registry and cache afterwards. *)
Fixpoint process_items (self : StoragePipeline) (items : list pydict) (sp : spider)
    (s : @SpiderRunner.AsyncSpiderRunner pydict time) (r : Redis.t) (redis_now : Z)
    : list (outcome pydict) * processed :=
  match items with
  | [] => ([], Processed (Raise (DropItem "no item")) self sp s r)
  | item :: items =>
      let p := process_item self item sp s r redis_now in
      match items with
      | [] => ([result p], p)
      | _ :: _ =>
          let '(os, q) := process_items (pipeline p) items (processed_spider p)
                            (processed_runner p) (processed_redis p) redis_now in
          (result p :: os, q)
      end
  end.

End StoragePipeline.

End Pipelines.

(** ** [app/api/endpoints/spiders.py] *)

Module Endpoints.

Section Endpoints.

Context {pydict time : Type}.
(** [json.loads], [None] when it raises. *)
Context (json_loads : string → option pydict).

Record pagination := Pagination {
  start : Z;
  limit : Z;
  total : Z;
  has_more : bool
}.

Record crawl_results := CrawlResults {
  task_id : string;
  items : list pydict;
  page : pagination
}.

(** The declared bounds [start: int = Query(0, ge=0)] and
    [limit: int = Query(100, ge=1, le=1000)]. *)
Definition valid_query (start limit : Z) : bool :=
  (0 <=? start)%Z && (1 <=? limit)%Z && (limit <=? 1000)%Z.

(** [get_crawl_results]; a request outside the declared bounds is answered
    422 before the body runs.  The two cache commands are two awaits: LRANGE
    is answered by the cache [r] at server time [redis_now], LLEN by the
    cache [r'] as it has become by the later time [redis_now']. *)
Definition get_crawl_results (r : Redis.t) (redis_now : Z) (r' : Redis.t) (redis_now' : Z)
    (task_id : string) (start limit : Z) : outcome crawl_results :=
  if negb (valid_query start limit) then Raise (HTTPException 422 "Unprocessable Entity")
  else
    let redis_key := "crawl_results:" +:+ task_id in
    match Redis.lrange redis_now r redis_key start (start + limit - 1) with
    | Raise e => Raise (HTTPException 500 ("获取结果失败: " +:+ exn_str e))
    | Return items =>
        match mapM json_loads items with
        | None => Raise (HTTPException 500 ("获取结果失败: " +:+ "Expecting value"))
        | Some parsed_items =>
            match Redis.llen redis_now' r' redis_key with
            | Raise e => Raise (HTTPException 500 ("获取结果失败: " +:+ exn_str e))
            | Return total =>
                Return {| task_id := task_id;
                          items := parsed_items;
                          page := {| start := start; limit := limit; total := total;
                                     has_more := (start + limit <? total)%Z |} |}
            end
        end
    end.

(** The endpoint [stop_task], from the value [spider_runner.stop_task]
    returned. *)
Definition stop_task (success : bool) (task_id : string) : outcome (string * string) :=
  if negb success then Raise (HTTPException 404 "任务不存在或无法停止")
  else Return ("任务停止请求已发送", task_id).

(** The endpoint [get_task_status]; a task dictionary is never empty, so
    [not task_info] is [task_info is None]. *)
Definition get_task_status (s : @SpiderRunner.AsyncSpiderRunner pydict time)
    (task_id : string) : outcome (@SpiderRunner.task pydict time) :=
  match SpiderRunner.get_task_status s task_id with
  | None => Raise (HTTPException 404 "任务不存在")
  | Some task_info => Return task_info
  end.

(** The page of [records] that starts at [start] and has [limit] places. *)
Definition slice (records : list pydict) (start limit : Z) : list pydict :=
  take (Z.to_nat limit) (drop (Z.to_nat start) records).

(** A cache and the server time at which a command reaches it. *)
Definition view : Type := Redis.t * Z.

(** The command finds the cache available and the sequence [stored] under
    the key of [task_id] (nothing, when [stored] is empty). *)
Definition shows (task_id : string) (stored : list string) (v : view) : Prop :=
  Redis.available v.1 = true
  ∧ Redis.list_at v.2 v.1 ("crawl_results:" +:+ task_id) = Some stored.

End Endpoints.

End Endpoints.

(** ** [app/api/dependencies.py]: [RateLimiter] *)

Module Dependencies.

Local Open Scope Z_scope.

Record RateLimiter := Limiter { requests_per_minute : Z }.

Definition redis_key (client_ip : string) : string := "rate_limit:" +:+ client_ip.

(** [RateLimiter.__call__]; [Return ()] admits the request. *)
Definition __call__ (self : RateLimiter) (r : Redis.t) (now : Z) (client_ip : string)
    : outcome unit * Redis.t :=
  match Redis.get now r (redis_key client_ip) with
  | Raise e => (Raise e, r)
  | Return None => Redis.setex now r (redis_key client_ip) 60 1
  | Return (Some current) =>
      let current_count := current in
      if requests_per_minute self <=? current_count then
        (Raise (HTTPException 429 "请求频率超限"), r)
      else
        match Redis.incr now r (redis_key client_ip) with
        | (Raise e, r) => (Raise e, r)
        | (Return _, r) => (Return (), r)
        end
  end.

(** Requests of one client arriving one after the other at the given server
    times: the answers, oldest first, and the cache afterwards. *)
Fixpoint serve (self : RateLimiter) (client_ip : string) (times : list Z) (r : Redis.t)
    : list (outcome unit) * Redis.t :=
  match times with
  | [] => ([], r)
  | now :: times =>
      let '(o, r) := __call__ self r now client_ip in
      let '(os, r) := serve self client_ip times r in
      (o :: os, r)
  end.

(** The counter a request arriving at [now] would read. *)
Definition counter (r : Redis.t) (now : Z) (client_ip : string) : option Z :=
  match Redis.find now r (redis_key client_ip) with
  | Some (Redis.Entry (Redis.VInt n) _) => Some n
  | _ => None
  end.

Definition admitted (o : outcome unit) : bool := negb (raised o).

(** The answer to a request over the ceiling. *)
Definition rejection : outcome unit := Raise (HTTPException 429 "请求频率超限").

End Dependencies.


(** ** [app/pipelines.py]: [ValidationPipeline] and [DuplicatesPipeline] *)

Module ItemPipelines.

(** A field value of a scraped item: [None], a [str], or any other object,
    of which only [str(v)] and [bool(v)] matter here; such an object has no
    [startswith] that takes a tuple of strings. *)
Inductive pyval :=
| PyNone
| PyStr (s : string)
| PyObj (str : string) (truth : bool).

Definition py_str (v : pyval) : string :=
  match v with
  | PyNone => "None"
  | PyStr s => s
  | PyObj str _ => str
  end.

Definition py_bool (v : pyval) : bool :=
  match v with
  | PyNone => false
  | PyStr s => negb (bool_decide (s = ""))
  | PyObj _ truth => truth
  end.

(** An item as [ItemAdapter] shows it: field names to values. *)
Abbreviation item := (gmap string pyval).

(** [adapter.get(field, default)] *)
Definition get (adapter : item) (field : string) (default : pyval) : pyval :=
  match adapter !! field with
  | Some v => v
  | None => default
  end.

(** [s.startswith(prefixes)] for a tuple of prefixes. *)
Definition startswith (s : string) (prefixes : list string) : bool :=
  existsb (λ p, String.prefix p s) prefixes.

Module ValidationPipeline.

Definition required_fields : list string := ["url"].

(** The loop over [required_fields]: the [DropItem] it raises, if any. *)
Fixpoint check_required (fields : list string) (adapter : item) : option exn :=
  match fields with
  | [] => None
  | field :: fields =>
      match adapter !! field with
      | None => Some (DropItem ("缺少必需字段: " +:+ field))
      | Some v =>
          if negb (py_bool v) then Some (DropItem ("缺少必需字段: " +:+ field))
          else check_required fields adapter
      end
  end.

(** [ValidationPipeline.process_item] *)
Definition process_item (it : item) : outcome item :=
  match check_required required_fields it with
  | Some e => Raise e
  | None =>
      match get it "url" (PyStr "") with
      | PyStr url =>
          if negb (startswith url ["http://"; "https://"])
          then Raise (DropItem ("无效的URL格式: " +:+ url))
          else Return it
      | _ => Raise (Exception "object has no attribute 'startswith'")
      end
  end.

End ValidationPipeline.

Module DuplicatesPipeline.

Section Fingerprint.

(** [hashlib.sha256(content.encode('utf-8')).hexdigest()] *)
Context (sha256_hexdigest : string → string).

Record DuplicatesPipeline := Pipeline { seen_items : gset string }.

(** [__init__] *)
Definition init : DuplicatesPipeline := {| seen_items := ∅ |}.

(** The text [f"{url}:{title}"] that is hashed. *)
Definition content (it : item) : string :=
  py_str (get it "url" (PyStr "")) +:+ ":" +:+ py_str (get it "title" (PyStr "")).

(** [_generate_fingerprint] *)
Definition _generate_fingerprint (it : item) : string :=
  sha256_hexdigest (content it).

(** [DuplicatesPipeline.process_item] *)
Definition process_item (self : DuplicatesPipeline) (it : item)
    : outcome item * DuplicatesPipeline :=
  let fingerprint := _generate_fingerprint it in
  if bool_decide (fingerprint ∈ seen_items self) then
    (Raise (DropItem ("重复项目: " +:+ py_str (get it "url" PyNone))), self)
  else
    (Return it, {| seen_items := {[fingerprint]} ∪ seen_items self |}).

(** The items of one crawl passing the stage one after the other. *)
Fixpoint process_items (self : DuplicatesPipeline) (items : list item)
    : list (outcome item) * DuplicatesPipeline :=
  match items with
  | [] => ([], self)
  | it :: items =>
      let '(o, self) := process_item self it in
      let '(os, self) := process_items self items in
      (o :: os, self)
  end.

End Fingerprint.

End DuplicatesPipeline.

Section Chain.

Context {time : Type}.
Context (sha256_hexdigest : string → string).
Context (json_dumps : item → option string).

(** The stages that keep state, the spider, the registry and the cache. *)
Record chain := Chain {
  duplicates : DuplicatesPipeline.DuplicatesPipeline;
  storage : Pipelines.StoragePipeline;
  chain_spider : Pipelines.spider;
  chain_runner : @SpiderRunner.AsyncSpiderRunner item time;
  chain_redis : Redis.t
}.

(** One scraped item through the stages in the order [ITEM_PIPELINES] of
    [app/settings.py] gives them (validation 100, duplicates 200, storage
    300); a stage that raises ends the way of the item. *)
Definition process_item (c : chain) (it : item) (redis_now : Z) : outcome item * chain :=
  match ValidationPipeline.process_item it with
  | Raise e => (Raise e, c)
  | Return it =>
      match DuplicatesPipeline.process_item sha256_hexdigest (duplicates c) it with
      | (Raise e, d) =>
          (Raise e,
           {| duplicates := d; storage := storage c; chain_spider := chain_spider c;
              chain_runner := chain_runner c; chain_redis := chain_redis c |})
      | (Return it, d) =>
          let p := Pipelines.process_item json_dumps (storage c) it (chain_spider c)
                     (chain_runner c) (chain_redis c) redis_now in
          (Pipelines.result p,
           {| duplicates := d; storage := Pipelines.pipeline p;
              chain_spider := Pipelines.processed_spider p;
              chain_runner := Pipelines.processed_runner p;
              chain_redis := Pipelines.processed_redis p |})
      end
  end.

(** The items of a crawl, one after the other. *)
Fixpoint process_items (c : chain) (items : list item) (redis_now : Z)
    : list (outcome item) * chain :=
  match items with
  | [] => ([], c)
  | it :: items =>
      let '(o, c) := process_item c it redis_now in
      let '(os, c) := process_items c items redis_now in
      (o :: os, c)
  end.



End Chain.

End ItemPipelines.

(** ** [app/spiders/base_spider.py]: the item counter of [BaseSpider] *)

Module BaseSpider.

Local Open Scope Z_scope.

(** [close_requests] counts the calls of
    [self.crawler.engine.close_spider(spider, 'max_items_reached')]. *)
Record BaseSpider := Spider {
  items_scraped : Z;
  max_items : Z;
  close_requests : nat
}.

(** [__init__], as far as the counter goes: [max_items] is
    [kwargs.get('max_items', 1000)]. *)
Definition __init__ (max_items_kwarg : option Z) : BaseSpider :=
  {| items_scraped := 0;
     max_items := match max_items_kwarg with Some m => m | None => 1000 end;
     close_requests := 0 |}.

(** [item_scraped] *)
Definition item_scraped (self : BaseSpider) : BaseSpider :=
  let self := {| items_scraped := items_scraped self + 1; max_items := max_items self;
                 close_requests := close_requests self |} in
  if max_items self <=? items_scraped self then
    {| items_scraped := items_scraped self; max_items := max_items self;
       close_requests := S (close_requests self) |}
  else self.

(** [n] items scraped one after the other. *)
Fixpoint items_scraped_times (n : nat) (self : BaseSpider) : BaseSpider :=
  match n with
  | O => self
  | S n => items_scraped_times n (item_scraped self)
  end.

End BaseSpider.

(** ** [app/core/resources.py] and [get_redis_client] *)

Module Resources.

Section Manager.

(** The three kinds of handle, opaque. *)
Context {redis_pool db_pool http_session : Type}.

Record AsyncResourceManager := Manager {
  _redis_pool : option redis_pool;
  _db_pool : option db_pool;
  _http_session : option http_session;
  _initialized : bool
}.

(** [__init__] *)
Definition __init__ : AsyncResourceManager :=
  {| _redis_pool := None; _db_pool := None; _http_session := None; _initialized := false |}.





(** The property [redis] *)
Definition redis (self : AsyncResourceManager) : outcome redis_pool :=
  match _redis_pool self with
  | None => Raise (Exception "Redis连接池未初始化")
  | Some pool => Return pool
  end.




End Manager.

End Resources.

(** ** [app/api/endpoints/monitoring.py]: the application block of [get_metrics] *)

Module Monitoring.

#[local] Existing Instance SpiderRunner.SpiderStatus_eq_dec.

Section Metrics.

Context {pydict time : Type}.

Record application := Application {
  active_tasks : nat;
  running_tasks : nat;
  completed_tasks : nat;
  failed_tasks : nat
}.

(** [len([t for t in active_tasks.values() if t.get('status') == st])] *)
Definition count_status (st : SpiderRunner.SpiderStatus)
    (tasks : gmap string (@SpiderRunner.task pydict time)) : nat :=
  length (filter (λ t, SpiderRunner.status t = st) (map_to_list tasks).*2).

(** The entry "application" of the metrics [get_metrics] returns when
    [redis.info()] does.  [get_all_tasks] hands out the registry itself, not
    a copy:
    [running_tasks] is counted on the registry [s] as it is before
    [await redis.info()], the three other numbers on the registry [s'] as
    it is when that await is over. *)
Definition application_metrics (s s' : @SpiderRunner.AsyncSpiderRunner pydict time)
    : application :=
  let running_tasks := count_status SpiderRunner.RUNNING (SpiderRunner.get_all_tasks s) in
  let active_tasks := SpiderRunner.get_all_tasks s' in
  {| active_tasks := size active_tasks;
     running_tasks := running_tasks;
     completed_tasks := count_status SpiderRunner.COMPLETED active_tasks;
     failed_tasks := count_status SpiderRunner.FAILED active_tasks |}.

End Metrics.

End Monitoring.

(** * Scenarios

    Items are taken as their JSON text, so that [json.dumps] and
    [json.loads] are the identity; times are integers. *)

Module Scenario.

Import SpiderRunner.

Local Open Scope Z_scope.

Definition dumps (item : string) : option string := Some item.
Definition loads (payload : string) : option string := Some payload.

(** Keyword arguments are written [{}] when there are none and [key=value]
    for one argument. *)
Definition has_key (kwargs key : string) : bool := String.prefix (key +:+ "=") kwargs.

Definition world0 : @world string Z := init_world.

Definition crawler_of (tid : string) : crawler :=
  {| crawler_spider := Some {| name := "s1"; task_id := Some tid |} |}.

(** Task A is launched, its crawl starts, it completes. *)
Definition launch_A : list (@event string Z) :=
  [run_spider_ev "A" "s1" "{}" 0; loop_step_ev (Return ()) 1].
Definition complete_A : list (@event string Z) :=
  [spider_success_ev None "A"; loop_step_ev (Return ()) 9].

(** Task R completes: its callback has fired, the update it created has
    not run yet. *)
Definition complete_R : list (@event string Z) :=
  [run_spider_ev "R" "s1" "{}" 0; loop_step_ev (Return ()) 1; spider_success_ev None "R"].

(** Task B is launched and its crawl starts. *)
Definition launch_B : list (@event string Z) :=
  [run_spider_ev "B" "s1" "{}" 0; loop_step_ev (Return ()) 1].

(** Task B is launched and stopped at once, its crawler being live. *)
Definition stop_B : list (@event string Z) :=
  [run_spider_ev "B" "s1" "{}" 0; loop_step_ev (Return ()) 1;
   stop_task_ev [crawler_of "B"] "B" 2].
(** The completion callback fires before the teardown is over. *)
Definition race_B : list (@event string Z) :=
  [spider_success_ev None "B"; loop_step_ev (Return ()) 3;
   stop_resume_ev "B" (Return ()) 4].

(** Task F fails, then a stray completion callback arrives. *)
Definition fail_F : list (@event string Z) :=
  [run_spider_ev "F" "s1" "{}" 0; loop_step_ev (Return ()) 1;
   spider_error_ev "boom" "F"; loop_step_ev (Return ()) 2].

Definition five_items : list string := ["{1}"; "{2}"; "{3}"; "{4}"; "{5}"].

Definition cache_down : Redis.t := Redis.Server false ∅.

(** Scraped items: a valid one, the same page scraped again with another
    field, and one whose url is not http. *)
Definition item_one : ItemPipelines.item :=
  <["url" := ItemPipelines.PyStr "http://a.example/1"]>
    (<["title" := ItemPipelines.PyStr "One"]> ∅).
Definition item_one_again : ItemPipelines.item :=
  <["author" := ItemPipelines.PyStr "somebody"]> item_one.

(** A valid item with a field that [json.dumps] refuses. *)
Definition item_set : ItemPipelines.item :=
  <["url" := ItemPipelines.PyStr "http://a.example/2"]>
    (<["tags" := ItemPipelines.PyObj "{1, 2}" true]> ∅).

(** Stand-ins for [sha256] and [json.dumps] on items; [dumps_plain] refuses
    an item with a field "tags". *)
Definition digest (content : string) : string := content.
Definition dumps_url (it : ItemPipelines.item) : option string :=
  Some (ItemPipelines.py_str (ItemPipelines.get it "url" ItemPipelines.PyNone)).
Definition dumps_plain (it : ItemPipelines.item) : option string :=
  match it !! "tags" with
  | Some _ => None
  | None => dumps_url it
  end.

Definition chain0 : @ItemPipelines.chain Z :=
  {| ItemPipelines.duplicates := ItemPipelines.DuplicatesPipeline.init;
     ItemPipelines.storage := Pipelines.Pipeline 0;
     ItemPipelines.chain_spider := {| Pipelines.stats := Some ∅; Pipelines.task_id := Some "A" |};
     ItemPipelines.chain_runner := init;
     ItemPipelines.chain_redis := Redis.Server true ∅ |}.


End Scenario.

(** * Facts about the cache *)

Section CacheFacts.

Import Redis.

Local Open Scope Z_scope.

(** With both indices in range order, LRANGE is [take] after [drop]. *)
Lemma range_take_drop (l : list string) (start stop : Z) :
  0 ≤ start → start ≤ stop →
  range l start stop = take (Z.to_nat (stop - start + 1)) (drop (Z.to_nat start) l).
Proof.
  intros Hstart Hstop. unfold range.
  rewrite (proj2 (Z.ltb_ge start 0)) by done.
  rewrite (proj2 (Z.ltb_ge stop 0)) by lia.
  rewrite (proj2 (Z.ltb_ge start 0)) by done.
  rewrite (proj2 (Z.ltb_ge stop start)) by done. simpl.
  destruct (Z.leb_spec (Z.of_nat (length l)) start) as [Hlen|Hlen].
  - rewrite drop_ge by lia. by rewrite take_nil.
  - destruct (Z.leb_spec (Z.of_nat (length l)) stop) as [Hlen'|Hlen']; [|done].
    rewrite !take_ge; [done| |]; rewrite length_drop; lia.
Qed.

Lemma find_put_eq (now : Z) (r : Redis.t) (k : string) (e : entry) :
  find now (put r k e) k = if live now e then Some e else None.
Proof. unfold find, put; simpl. by rewrite lookup_insert_eq. Qed.

Lemma find_put_ne (now : Z) (r : Redis.t) (k k' : string) (e : entry) :
  k ≠ k' → find now (put r k e) k' = find now r k'.
Proof. intros Hne. unfold find, put; simpl. by rewrite lookup_insert_ne. Qed.

(** A key that is gone stays gone as time passes. *)
Lemma find_None_later (now later : Z) (r : Redis.t) (k : string) :
  now ≤ later → find now r k = None → find later r k = None.
Proof.
  unfold find, live. intros Hle. destruct (db r !! k) as [[v [d|]]|]; simpl; [|done..].
  repeat case_bool_decide; try done; lia.
Qed.

Lemma apply_all_rpush (now : Z) (k : string) (payloads : list string) (r : Redis.t) (l : list string) :
  list_at now r k = Some l →
  ∃ r', apply_all now (RPUSH k <$> payloads) r = (None, r')
        ∧ available r' = available r
        ∧ list_at now r' k = Some (l ++ payloads)
        ∧ (payloads = [] → r' = r)
        ∧ (payloads ≠ [] → ∃ ex, db r' !! k = Some (Entry (VList (l ++ payloads)) ex)
                                  ∧ live now (Entry (VList (l ++ payloads)) ex) = true).
Proof.
  revert r l. induction payloads as [|v payloads IH]; intros r l Hl.
  { exists r. rewrite app_nil_r. by repeat split. }
  rewrite fmap_cons. cbn [apply_all apply].
  unfold list_at in Hl.
  destruct (find now r k) as [[[n|l0] ex]|] eqn:Hfind; simplify_eq.
  - destruct (IH (put r k (Entry (VList (l ++ [v])) ex)) (l ++ [v]))
      as (r' & Happ & Hav & Hlist & _ & Hne).
    { unfold list_at. rewrite find_put_eq.
      assert (live now (Entry (VList (l ++ [v])) ex) = true) as ->; [|done].
      unfold find in Hfind. destruct (db r !! k) as [e|]; [|done].
      destruct (live now e) eqn:Hlive; simplify_eq. done. }
    exists r'. rewrite Happ. rewrite <- (assoc_L (++)) in Hlist. simpl in Hlist.
    repeat split; try done.
    destruct payloads as [|v' payloads].
    + simpl in Happ. simplify_eq. exists ex. simpl. rewrite lookup_insert_eq.
      split; [done|]. unfold find in Hfind. destruct (db r !! k) as [e|]; [|done].
      destruct (live now e) eqn:Hlive; simplify_eq. done.
    + destruct Hne as (ex' & Hdb & Hlive); [done|].
      exists ex'. rewrite <- (assoc_L (++)) in Hdb, Hlive. done.
  - destruct (IH (put r k (Entry (VList [v]) None)) [v])
      as (r' & Happ & Hav & Hlist & _ & Hne).
    { unfold list_at. by rewrite find_put_eq. }
    exists r'. rewrite Happ. repeat split; try done.
    destruct payloads as [|v' payloads].
    + simpl in Happ. simplify_eq. exists None. simpl. by rewrite lookup_insert_eq.
    + destruct Hne as (ex' & Hdb & Hlive); [done|]. by exists ex'.
Qed.

Lemma apply_all_app (now : Z) (cs1 cs2 : list command) (r r' : Redis.t) :
  apply_all now cs1 r = (None, r') →
  apply_all now (cs1 ++ cs2) r = apply_all now cs2 r'.
Proof.
  revert r. induction cs1 as [|c cs1 IH]; intros r H; simpl in *; [by simplify_eq|].
  destruct (apply now c r) as [e ra]. destruct (apply_all now cs1 ra) as [e' rb] eqn:Hrb.
  destruct e, e'; simplify_eq. rewrite (IH ra Hrb). by destruct (apply_all now cs2 r').
Qed.

(** The pipeline of [store_crawl_results] on a key holding a list, or
    nothing: the batch is appended in order, and the key is left to vanish
    once 3600 seconds from now have passed. *)
Lemma execute_store_pipeline (now : Z) (k : string) (payloads : list string)
    (r : Redis.t) (l : list string) :
  available r = true →
  list_at now r k = Some l →
  ∃ r', execute now ((RPUSH k <$> payloads) ++ [EXPIRE k 3600]) r = (Return (), r')
        ∧ available r' = true
        ∧ (∀ later, now ≤ later ≤ now + 3600 → list_at later r' k = Some (l ++ payloads))
        ∧ (∀ later, now + 3600 < later → find later r' k = None).
Proof.
  intros Hav Hl.
  destruct (apply_all_rpush now k payloads r l Hl) as (r1 & Happ & Hav1 & Hlist & Hnil & Hcons).
  unfold execute. rewrite Hav, (apply_all_app _ _ _ _ _ Happ). simpl.
  unfold list_at in Hlist.
  destruct (find now r1 k) as [[v ex]|] eqn:Hfind.
  - exists (put r1 k (Entry v (Some (now + 3600)))). split; [done|].
    split; [by rewrite <- Hav, <- Hav1|].
    destruct v as [n|l']; simplify_eq. split.
    + intros later Hlater. unfold list_at. rewrite find_put_eq. unfold live; simpl.
      rewrite bool_decide_eq_true_2 by lia. done.
    + intros later Hlater. rewrite find_put_eq. unfold live; simpl.
      rewrite bool_decide_eq_false_2 by lia. done.
  - exists r1. split; [done|]. split; [congruence|]. simplify_eq.
    assert (payloads = []) as ->.
    { destruct payloads as [|v payloads]; [done|]. destruct Hcons as (ex & Hdb & Hlive); [done|].
      unfold find in Hfind. rewrite Hdb, Hlive in Hfind. done. }
    assert (l = []) as -> by (by destruct l).
    split.
    + intros later Hlater. unfold list_at. rewrite (find_None_later now later); [done|lia|done].
    + intros later Hlater. apply (find_None_later now later); [lia|done].
Qed.

End CacheFacts.

(** * Properties of the task registry *)

Section RegistryProperties.

Context {pydict time : Type}.
Context (json_dumps : pydict → option string).
Context (has_key : pydict → string → bool).

Import SpiderRunner.

Abbreviation AsyncSpiderRunner := (@SpiderRunner.AsyncSpiderRunner pydict time).
Abbreviation task := (@SpiderRunner.task pydict time).
Abbreviation world := (@SpiderRunner.world pydict time).
Abbreviation event := (@SpiderRunner.event pydict time).
Abbreviation run_spider := (SpiderRunner.run_spider has_key).
Abbreviation schedules := (SpiderRunner.schedules has_key).
Abbreviation step := (SpiderRunner.step json_dumps has_key).
Abbreviation run := (SpiderRunner.run json_dumps has_key).

(** How each operation acts on the record of one task. *)

Lemma lookup_with_tasks (m : gmap string task) (s : AsyncSpiderRunner) (k : string) :
  active_tasks (with_tasks m s) !! k = m !! k.
Proof. reflexivity. Qed.

Lemma lookup_create_task co (s : AsyncSpiderRunner) (k : string) :
  active_tasks (create_task co s) !! k = active_tasks s !! k.
Proof. reflexivity. Qed.

Lemma lookup_update_task (tid : string) f (s : AsyncSpiderRunner) (k : string) :
  active_tasks (update_task tid f s) !! k
  = if decide (tid = k) then f <$> active_tasks s !! k else active_tasks s !! k.
Proof. unfold update_task; simpl. rewrite lookup_alter. by case_decide; subst. Qed.

Lemma run_spider_tasks (s : AsyncSpiderRunner) (uuid name : string) (kw : pydict) (now : time) :
  active_tasks (run_spider s uuid name kw now).2
  = <[uuid := fresh_task name kw now]> (active_tasks s).
Proof. unfold SpiderRunner.run_spider. by destruct (has_key kw "task_id"). Qed.

Lemma run_spider_suspended (s : AsyncSpiderRunner) (uuid name : string) (kw : pydict) (now : time) :
  suspended_stops (run_spider s uuid name kw now).2 = suspended_stops s.
Proof. unfold SpiderRunner.run_spider. by destruct (has_key kw "task_id"). Qed.

Lemma run_spider_ready (s : AsyncSpiderRunner) (uuid name : string) (kw : pydict) (now : time) :
  ready (run_spider s uuid name kw now).2
  = if has_key kw "task_id" then ready s else ready s ++ [run_spider_task_co uuid name kw].
Proof. unfold SpiderRunner.run_spider. by destruct (has_key kw "task_id"). Qed.

Lemma run_app evs1 evs2 (w : world) : run (evs1 ++ evs2) w = run evs2 (run evs1 w).
Proof. revert w. induction evs1 as [|ev evs1 IH]; intros w; simpl; [done | apply IH]. Qed.

Lemma store_runner_lookup (s : AsyncSpiderRunner) r now (tid : string) items (k : string) :
  active_tasks (stored_runner (store_crawl_results json_dumps s r now tid items)) !! k
  = match active_tasks s !! k with
    | Some t =>
        if decide (tid = k) then
          Some (match logged (store_crawl_results json_dumps s r now tid items) with
                | None => set_items_count (length items) t
                | Some _ => t
                end)
        else Some t
    | None => None
    end.
Proof.
  unfold store_crawl_results.
  destruct (mapM json_dumps items) as [payloads|]; simpl.
  2:{ destruct (active_tasks s !! k); [case_decide|]; done. }
  destruct (Redis.execute _ _ _) as [[[]|e] r']; simpl.
  2:{ destruct (active_tasks s !! k); [case_decide|]; done. }
  destruct (active_tasks s !! tid) as [t|] eqn:Ht; simpl.
  - destruct (decide (tid = k)) as [->|Hne].
    + by rewrite lookup_insert_eq, Ht.
    + rewrite lookup_insert_ne by done. by destruct (active_tasks s !! k).
  - destruct (decide (tid = k)) as [->|Hne].
    + by rewrite Ht.
    + by destruct (active_tasks s !! k).
Qed.

Lemma update_task_status_lookup (s : AsyncSpiderRunner) (tid : string) st result now (k : string) :
  active_tasks (_update_task_status s tid st result now) !! k
  = if decide (tid = k) then updated st result now <$> active_tasks s !! k
    else active_tasks s !! k.
Proof.
  unfold _update_task_status.
  destruct (decide (tid = k)) as [->|Hne].
  - destruct (active_tasks s !! k) as [t|] eqn:Hk; simpl; [|by rewrite Hk].
    by rewrite lookup_insert_eq.
  - destruct (active_tasks s !! tid); simpl; [by rewrite lookup_insert_ne|done].
Qed.

Lemma stop_task_lookup (s : AsyncSpiderRunner) crawlers (tid : string) now (k : string) :
  active_tasks (stop_task s crawlers tid now).2 !! k
  = match active_tasks s !! k with
    | Some t =>
        if decide (tid = k) then
          if bool_decide (status t = RUNNING) then
            match find_crawler crawlers tid with
            | Some _ => Some (set_status STOPPING t)
            | None => Some (set_end_time now (set_status STOPPED t))
            end
          else Some t
        else Some t
    | None => None
    end.
Proof.
  unfold stop_task.
  destruct (decide (tid = k)) as [->|Hne].
  - destruct (active_tasks s !! k) as [t|] eqn:Hk; simpl; [|by rewrite Hk].
    destruct (bool_decide (status t = RUNNING)); simpl; [|by rewrite Hk].
    destruct (find_crawler crawlers k); simpl; by rewrite !lookup_alter_eq, Hk.
  - destruct (active_tasks s !! tid) as [t|]; simpl; [|by destruct (active_tasks s !! k)].
    destruct (bool_decide (status t = RUNNING)); simpl; [|by destruct (active_tasks s !! k)].
    destruct (find_crawler crawlers tid); simpl;
      rewrite !lookup_alter_ne by done; by destruct (active_tasks s !! k).
Qed.

Lemma stop_task_resume_lookup (s : AsyncSpiderRunner) (tid : string) teardown now (k : string) :
  active_tasks (stop_task_resume s tid teardown now).2 !! k
  = if decide (tid = k) then (λ t, set_end_time now (set_status STOPPED t)) <$> active_tasks s !! k
    else active_tasks s !! k.
Proof.
  assert (active_tasks (stop_task_resume s tid teardown now).2
          = alter (set_end_time now) tid (alter (set_status STOPPED) tid (active_tasks s)))
    as -> by (by destruct teardown).
  rewrite !lookup_alter. case_decide; [subst|done].
  rewrite decide_True by done. by destruct (active_tasks s !! k).
Qed.

(** Every step either creates the record of [k] afresh or moves it in one
    of the ways of [task_moves]. *)
Lemma step_record (ev : event) (w : world) (k : string) (t' : task) :
  active_tasks (runner (step ev w)) !! k = Some t' →
  (∃ name kw now, ev = run_spider_ev k name kw now ∧ t' = fresh_task name kw now)
  ∨ (∃ t, active_tasks (runner w) !! k = Some t ∧ task_moves (runner w) k t t').
Proof.
  destruct w as [s r].
  destruct ev as [uuid name kw now|crawl now|result tid|failure tid|crawlers tid now
                 |tid teardown now|tid batch rnow|tid| |b]; simpl.
  - rewrite run_spider_tasks, lookup_insert. case_decide as Hk; intros Ht'.
    + subst. left. do 3 eexists. split; [done|]. by simplify_eq.
    + right. eexists. split; [done|constructor].
  - unfold loop_step. destruct (ready s) as [|co rest] eqn:Hready.
    { intros ?. right. eexists. split; [done|constructor]. }
    destruct co as [tid name kw|tid st result]; simpl.
    + destruct crawl as [[]|e]; simpl.
      { intros ?. right. eexists. split; [done|constructor]. }
      unfold _handle_spider_exception. rewrite update_task_status_lookup; simpl.
      case_decide as Hk; intros Ht'.
      * subst. destruct (active_tasks s !! k) as [t|]; simplify_eq/=.
        right. eexists. split; [done|]. by eapply moves_launch_failed.
      * right. eexists. split; [done|constructor].
    + rewrite update_task_status_lookup; simpl.
      case_decide as Hk; intros Ht'.
      * subst. destruct (active_tasks s !! k) as [t|]; simplify_eq/=.
        right. eexists. split; [done|]. by eapply moves_updated.
      * right. eexists. split; [done|constructor].
  - unfold _on_spider_success. destruct (being_stopped _ _); simpl;
      intros ?; right; eexists; (split; [done|constructor]).
  - unfold _on_spider_error. destruct (being_stopped _ _); simpl;
      intros ?; right; eexists; (split; [done|constructor]).
  - rewrite stop_task_lookup. destruct (active_tasks s !! k) as [t|]; [|done].
    case_decide as Hk; [|intros; simplify_eq; right; eexists; split; [done|constructor]].
    case_bool_decide as Hrun; [|intros; simplify_eq; right; eexists; split; [done|constructor]].
    destruct (find_crawler _ _); intros; simplify_eq; right; eexists; (split; [done|]).
    + by apply moves_stopping.
    + by apply moves_stopped_directly.
  - case_bool_decide as Hin; simpl; [|intros; right; eexists; split; [done|constructor]].
    intros Ht'. pose proof (stop_task_resume_lookup s tid teardown now k) as Hl.
    simpl in Hl. rewrite Hl in Ht'. clear Hl.
    case_decide as Hk; [|right; eexists; split; [done|constructor]].
    subst. destruct (active_tasks s !! k) as [t|]; simplify_eq/=.
    right. eexists. split; [done|]. by apply moves_stop_finalized.
  - rewrite store_runner_lookup. destruct (active_tasks s !! k) as [t|]; [|done].
    case_decide; [|intros; simplify_eq; right; eexists; split; [done|constructor]].
    destruct (logged _); intros; simplify_eq; right; eexists; (split; [done|constructor]).
  - intros ?. right. eexists. split; [done|constructor].
  - intros ?. right. eexists. split; [done|constructor].
  - intros ?. right. eexists. split; [done|constructor].
Qed.

(** A step leaves the ready queue alone, appends the coroutine the event
    creates, or runs its head. *)
Lemma step_ready (ev : event) (w : world) :
  ready (runner (step ev w)) = ready (runner w)
  ∨ (∃ co, ready (runner (step ev w)) = ready (runner w) ++ [co] ∧ schedules ev (runner w) co)
  ∨ (∃ co, ready (runner w) = co :: ready (runner (step ev w))).
Proof.
  destruct w as [s r].
  destruct ev as [uuid name kw now|crawl now|result tid|failure tid|crawlers tid now
                 |tid teardown now|tid batch rnow|tid| |b]; simpl.
  - rewrite run_spider_ready. destruct (has_key kw "task_id") eqn:Hkw; [by left|].
    right; left. by eexists.
  - unfold loop_step. destruct (ready s) as [|co rest] eqn:Hready; [by left|].
    right; right. exists co. f_equal.
    destruct co as [tid name kw|tid st result]; simpl.
    + destruct crawl; simpl; [done|].
      unfold _handle_spider_exception, _update_task_status; simpl. by destruct (_ !! _).
    + unfold _update_task_status; simpl. by destruct (_ !! _).
  - unfold _on_spider_success. destruct (being_stopped s tid) eqn:Hb; [by left|].
    right; left. by eexists.
  - unfold _on_spider_error. destruct (being_stopped s tid) eqn:Hb; [by left|].
    right; left. by eexists.
  - left. unfold stop_task. destruct (_ !! _); [|done].
    destruct (negb _); [done|]. by destruct (find_crawler _ _).
  - left. case_bool_decide; [|done]. by destruct teardown.
  - left. unfold store_crawl_results. destruct (mapM _ _); [|done].
    destruct (Redis.execute _ _ _) as [[[]|e] r']; [|done]. by destruct (_ !! _).
  - by left.
  - by left.
  - by left.
Qed.

(** No step removes a record from [active_tasks]. *)
Lemma step_keeps_task (ev : event) (w : world) (k : string) :
  is_Some (active_tasks (runner w) !! k) →
  is_Some (active_tasks (runner (step ev w)) !! k).
Proof.
  destruct w as [s r]. intros [t Ht].
  destruct ev as [uuid name kw now|crawl now|result tid|failure tid|crawlers tid now
                 |tid teardown now|tid batch rnow|tid| |b]; simpl in *.
  - rewrite run_spider_tasks, lookup_insert. case_decide; eauto.
  - unfold loop_step. destruct (ready s) as [|co rest]; [eauto|].
    destruct co as [tid name kw|tid st result]; simpl.
    + destruct crawl; simpl; [eauto|]. unfold _handle_spider_exception.
      rewrite update_task_status_lookup; simpl. case_decide; rewrite Ht; eauto.
    + rewrite update_task_status_lookup; simpl. case_decide; rewrite Ht; eauto.
  - unfold _on_spider_success. destruct (being_stopped s tid); eauto.
  - unfold _on_spider_error. destruct (being_stopped s tid); eauto.
  - rewrite stop_task_lookup, Ht. repeat case_match; eauto.
  - case_bool_decide; simpl; [|eauto].
    pose proof (stop_task_resume_lookup s tid teardown now k) as Hl. simpl in Hl.
    rewrite Hl, Ht. case_decide; eauto.
  - rewrite store_runner_lookup, Ht. repeat case_match; eauto.
  - eauto.
  - eauto.
  - eauto.
Qed.

Lemma run_keeps_task (evs : list event) (w : world) (k : string) :
  is_Some (active_tasks (runner w) !! k) →
  is_Some (active_tasks (runner (run evs w)) !! k).
Proof.
  revert w. induction evs as [|ev evs IH]; intros w Hk; simpl; [done|].
  apply IH. by apply step_keeps_task.
Qed.

(** *** The invariant behind [end_time] *)

Lemma registry_inv_init : registry_inv (init : AsyncSpiderRunner).
Proof.
  split.
  - intros k t Hk. simpl in Hk. by rewrite lookup_empty in Hk.
  - intros tid st result Hin. simpl in Hin. by apply elem_of_nil in Hin.
Qed.

Lemma updates_terminal_step (ev : event) (w : world) :
  updates_terminal (runner w) → updates_terminal (runner (step ev w)).
Proof.
  intros Hq tid st result Hin.
  destruct (step_ready ev w) as [Heq|[(co & Heq & Hco)|(co & Heq)]].
  - rewrite Heq in Hin. eauto.
  - rewrite Heq in Hin. apply elem_of_app in Hin as [Hin|Hin]; [eauto|].
    apply list_elem_of_singleton in Hin. subst co.
    destruct ev; simpl in Hco; try done; destruct Hco as [_ Hco]; by simplify_eq.
  - apply (Hq tid st result). rewrite Heq. by right.
Qed.

Lemma updated_status st result now (t : task) : status (updated st result now t) = st.
Proof. unfold updated. by destruct (_ && _). Qed.

Lemma updated_end_time st result now (t : task) : end_time (updated st result now t) = Some now.
Proof. unfold updated. by destruct (_ && _). Qed.

Lemma registry_inv_step (ev : event) (w : world) :
  registry_inv (runner w) → registry_inv (runner (step ev w)).
Proof.
  intros [Hrec Hq]. split; [|by apply updates_terminal_step].
  intros k t' Ht'.
  apply step_record in Ht' as [(name & kw & now & -> & ->)|(t & Ht & Hmove)].
  { by split; [intros [? ?]|]. }
  specialize (Hrec k t Ht). unfold end_time_iff_terminal in *.
  destruct Hmove as [|n|st result now rest Hready|name kw error now rest Hready
                    |Hrun|now Hrun|now Hin]; simpl; try done.
  - rewrite updated_status, updated_end_time.
    assert (terminal st = true) as ->; [|by split; eauto].
    apply (Hq k st result). rewrite Hready. by left.
  - by rewrite updated_status, updated_end_time.
  - rewrite Hrun in Hrec. simpl in Hrec. split; [|done]. intros H. by apply Hrec in H.
Qed.

Lemma registry_inv_run (evs : list event) (w : world) :
  registry_inv (runner w) → registry_inv (runner (run evs w)).
Proof.
  revert w. induction evs as [|ev evs IH]; intros w Hw; simpl; [done|].
  apply IH. by apply registry_inv_step.
Qed.

(** C3.  In every state the registry reaches from its initial, empty one,
    by any sequence of operations, a task record carries [end_time] if and
    only if its status is COMPLETED, FAILED or STOPPED; in particular
    [end_time] is absent while the status is PENDING, RUNNING or STOPPING. *)
Theorem end_time_set_iff_terminal (r : Redis.t) (evs : list event) (tid : string) (t : task) :
  get_task_status (runner (run evs (World init r))) tid = Some t →
  (is_Some (end_time t) ↔ terminal (status t) = true)
  ∧ (status t = PENDING ∨ status t = RUNNING ∨ status t = STOPPING → end_time t = None).
Proof.
  intros Ht.
  assert (end_time_iff_terminal t) as Hiff.
  { eapply (registry_inv_run evs (World init r)); [apply registry_inv_init|exact Ht]. }
  split; [exact Hiff|].
  intros Hst. destruct (end_time t) as [e|] eqn:He; [|done].
  assert (terminal (status t) = true) as Hterm by (apply Hiff; eauto).
  by destruct Hst as [Hst|[Hst|Hst]]; rewrite Hst in Hterm.
Qed.

(** *** Stop requests against callbacks *)

Lemma nothing_pending_step (ev : event) (w : world) (tid : string) :
  redraws tid ev = false →
  being_stopped (runner w) tid = true →
  nothing_pending tid (runner w) → nothing_pending tid (runner (step ev w)).
Proof.
  intros Hev Hstop Hq co Hin.
  destruct (step_ready ev w) as [Heq|[(co' & Heq & Hco)|(co' & Heq)]].
  - rewrite Heq in Hin. eauto.
  - rewrite Heq in Hin. apply elem_of_app in Hin as [Hin|Hin]; [eauto|].
    apply list_elem_of_singleton in Hin. subst co'.
    destruct ev; simpl in Hco, Hev; try done.
    + destruct Hco as [_ ->]; simpl. by apply bool_decide_eq_false in Hev.
    + destruct Hco as [Hb ->]; simpl. intros ->. congruence.
    + destruct Hco as [Hb ->]; simpl. intros ->. congruence.
  - apply Hq. rewrite Heq. by right.
Qed.

Section Held.

Variable P : SpiderStatus → bool.
Hypothesis P_stopped : P STOPPED = true.
Hypothesis P_stop_requested : ∀ st, P st = true → stop_requested st = true.

Lemma held_being_stopped (tid : string) (s : AsyncSpiderRunner) :
  held P tid s → being_stopped s tid = true.
Proof. intros [(t & Ht & Hst) _]. unfold being_stopped. rewrite Ht. auto. Qed.

Lemma held_step (ev : event) (w : world) (tid : string) :
  redraws tid ev = false →
  held P tid (runner w) → held P tid (runner (step ev w)).
Proof.
  intros Hev Hheld. pose proof (held_being_stopped _ _ Hheld) as Hb.
  destruct Hheld as [(t & Ht & Hst) Hq].
  split; [|by apply nothing_pending_step].
  destruct (step_keeps_task ev w tid) as [t' Ht']; [by eauto|].
  exists t'. split; [done|].
  apply step_record in Ht' as [(name & kw & now & -> & ->)|(t0 & Ht0 & Hmove)].
  { simpl in Hev. by rewrite bool_decide_eq_false in Hev. }
  rewrite Ht in Ht0. simplify_eq.
  apply P_stop_requested in Hst as Hreq.
  destruct Hmove as [|n|st result now rest Hready|name kw error now rest Hready
                    |Hrun|now Hrun|now Hin]; simpl; try done.
  - exfalso. apply (Hq (update_task_status_co tid st result)); [|done].
    rewrite Hready. by left.
  - exfalso. apply (Hq (run_spider_task_co tid name kw)); [|done].
    rewrite Hready. by left.
  - by rewrite Hrun in Hreq.
Qed.

Lemma held_run (evs : list event) (w : world) (tid : string) :
  Forall (λ ev, redraws tid ev = false) evs →
  held P tid (runner w) → held P tid (runner (run evs w)).
Proof.
  revert w. induction evs as [|ev evs IH]; intros w Hevs Hw; simpl; [done|].
  inversion Hevs; subst. apply IH; [done|]. by apply held_step.
Qed.

End Held.

(** What the guard of the two callbacks achieves.  Once a stop has been
    requested for a task (its status is STOPPING or STOPPED) and no
    coroutine created for it before the request is still to run, then after
    any further operations (no [uuid4] collision): a completion or failure
    callback that fires is ignored, leaving the registry as it is; the
    status is still STOPPING or STOPPED, so never COMPLETED or FAILED and,
    if terminal, STOPPED; and the end of the suspended [stop_task] leaves it
    STOPPED. *)
Lemma stop_request_wins (w : world) (tid : string) (t : task) (evs : list event) :
  get_task_status (runner w) tid = Some t →
  stop_requested (status t) = true →
  nothing_pending tid (runner w) →
  Forall (λ ev, redraws tid ev = false) evs →
  let w' := run evs w in
  (∀ result, _on_spider_success (runner w') result tid = runner w')
  ∧ (∀ failure, _on_spider_error (runner w') failure tid = runner w')
  ∧ (∃ st, status_of w' tid = Some st
           ∧ stop_requested st = true ∧ st ≠ COMPLETED ∧ st ≠ FAILED
           ∧ (terminal st = true → st = STOPPED))
  ∧ (∀ teardown now,
       tid ∈ suspended_stops (runner w') →
       status_of (step (stop_resume_ev tid teardown now) w') tid = Some STOPPED).
Proof.
  intros Ht Hst Hq Hevs w'.
  assert (stop_in_force tid (runner w')) as Hforce.
  { apply held_run; [done..|]. split; [by eauto|done]. }
  pose proof (held_being_stopped stop_requested (λ _ H, H) _ _ Hforce) as Hb.
  destruct Hforce as [(t' & Ht' & Hst') _].
  repeat split.
  - intros result. unfold _on_spider_success. by rewrite Hb.
  - intros failure. unfold _on_spider_error. by rewrite Hb.
  - exists (status t'). unfold status_of, get_task_status. rewrite Ht'. simpl.
    destruct (status t'); naive_solver.
  - intros teardown now Hin. unfold status_of, get_task_status. simpl.
    rewrite bool_decide_eq_true_2 by done. simpl.
    pose proof (stop_task_resume_lookup (runner w') tid teardown now tid) as Hl.
    simpl in Hl. rewrite Hl, decide_True, Ht' by done. done.
Qed.

(** *** Terminal states *)



Lemma stop_task_not_running (s : AsyncSpiderRunner) crawlers (tid : string) now :
  (∀ t, active_tasks s !! tid = Some t → status t ≠ RUNNING) →
  stop_task s crawlers tid now = (Finished false, s).
Proof.
  intros Hnot. unfold stop_task. destruct (active_tasks s !! tid) as [t|]; [|done].
  rewrite bool_decide_eq_false_2; [done|by apply Hnot].
Qed.



(** *** Stopping *)

(** The paths of [stop_task].  On a task that is unknown or whose status is
    not RUNNING it returns false and leaves the registry as it is, so a
    second stop of the same task, during or after the first, returns false
    without side effects.  On a RUNNING task with no crawler found it
    returns true at once and the task is finalized STOPPED with its
    [end_time] set; with a crawler found the status is STOPPING until
    [await d] is over, then the task is STOPPED, and the call returns true
    if [await d] returned and passes the exception on if it raised. *)
Lemma stop_task_contract (s : AsyncSpiderRunner) (crawlers : list crawler)
    (tid : string) (now : time) :
  ((∀ t, get_task_status s tid = Some t → status t ≠ RUNNING) →
   stop_task s crawlers tid now = (Finished false, s))
  ∧ (∀ crawlers' now',
       let s1 := (stop_task s crawlers tid now).2 in
       stop_task s1 crawlers' tid now' = (Finished false, s1)
       ∧ ∀ teardown now2,
           let s2 := (stop_task_resume s1 tid teardown now2).2 in
           stop_task s2 crawlers' tid now' = (Finished false, s2))
  ∧ (∀ t, get_task_status s tid = Some t → status t = RUNNING →
     match find_crawler crawlers tid with
     | None =>
         (stop_task s crawlers tid now).1 = Finished true
         ∧ get_task_status (stop_task s crawlers tid now).2 tid
           = Some (set_end_time now (set_status STOPPED t))
     | Some target_crawler =>
         let s1 := (stop_task s crawlers tid now).2 in
         (stop_task s crawlers tid now).1 = AwaitingStop target_crawler
         ∧ get_task_status s1 tid = Some (set_status STOPPING t)
         ∧ tid ∈ suspended_stops s1
         ∧ ∀ teardown now',
             get_task_status (stop_task_resume s1 tid teardown now').2 tid
             = Some (set_end_time now' (set_status STOPPED t))
             ∧ (stop_task_resume s1 tid (Return ()) now').1 = Return true
             ∧ ∀ e, (stop_task_resume s1 tid (Raise e) now').1 = Raise e
     end).
Proof.
  split; [by apply stop_task_not_running|]. split.
  - intros crawlers' now' s1.
    assert (∀ t, active_tasks s1 !! tid = Some t → status t ≠ RUNNING) as Hs1.
    { intros t1. unfold s1. rewrite stop_task_lookup.
      destruct (active_tasks s !! tid) as [t|]; [|done].
      rewrite decide_True by done. case_bool_decide as Hrun.
      - destruct (find_crawler crawlers tid); by intros [= <-].
      - by intros [= <-]. }
    split; [by apply stop_task_not_running|].
    intros teardown now2 s2. apply stop_task_not_running.
    intros t2. unfold s2. rewrite stop_task_resume_lookup, decide_True by done.
    destruct (active_tasks s1 !! tid); by intros [= <-].
  - intros t Ht Hrun. unfold get_task_status in *.
    destruct (find_crawler crawlers tid) as [c|] eqn:Hfind.
    + assert ((stop_task s crawlers tid now).1 = AwaitingStop c
              ∧ tid ∈ suspended_stops (stop_task s crawlers tid now).2) as [H1 H2].
      { unfold stop_task. rewrite Ht, Hfind, bool_decide_eq_true_2 by done. simpl.
        split; [done|by left]. }
      assert (active_tasks (stop_task s crawlers tid now).2 !! tid
              = Some (set_status STOPPING t)) as H3.
      { by rewrite stop_task_lookup, Ht, decide_True, Hfind, bool_decide_eq_true_2. }
      simpl. repeat split; try done.
      by rewrite stop_task_resume_lookup, decide_True, H3.
    + split.
      * unfold stop_task. by rewrite Ht, Hfind, bool_decide_eq_true_2.
      * by rewrite stop_task_lookup, Ht, decide_True, Hfind, bool_decide_eq_true_2.
Qed.

(** *** Ingest *)

(** What a call of [store_crawl_results] whose batch serializes leaves in an
    available cache, under a key that holds a list or nothing: the batch
    appended in order, readable up to the 3600th second and gone after it. *)
Lemma store_crawl_results_redis (s : AsyncSpiderRunner) (r : Redis.t) (rnow : Z)
    (tid : string) (batch : list pydict) (payloads l : list string) :
  Redis.available r = true →
  Redis.list_at rnow r ("crawl_results:" +:+ tid) = Some l →
  mapM json_dumps batch = Some payloads →
  let r' := stored_redis (store_crawl_results json_dumps s r rnow tid batch) in
  Redis.available r' = true
  ∧ (∀ later, (rnow ≤ later ≤ rnow + 3600)%Z →
       Redis.list_at later r' ("crawl_results:" +:+ tid) = Some (l ++ payloads))
  ∧ (∀ later, (rnow + 3600 < later)%Z →
       Redis.find later r' ("crawl_results:" +:+ tid) = None)
  ∧ logged (store_crawl_results json_dumps s r rnow tid batch)
    = match active_tasks s !! tid with
      | Some _ => None
      | None => Some (Exception tid)
      end.
Proof.
  intros Hav Hl Hdumps.
  destruct (execute_store_pipeline rnow ("crawl_results:" +:+ tid) payloads r l Hav Hl)
    as (r1 & Hexec & Hav1 & Hlive & Hgone).
  unfold store_crawl_results. rewrite Hdumps, Hexec.
  by destruct (active_tasks s !! tid).
Qed.

(** After a call that logged nothing, [items_count] is the size of the
    batch just stored, whatever it was before. *)
Lemma store_sets_items_count (s : AsyncSpiderRunner) (r : Redis.t) (rnow : Z)
    (tid : string) (batch : list pydict) :
  logged (store_crawl_results json_dumps s r rnow tid batch) = None →
  items_count <$> get_task_status
    (stored_runner (store_crawl_results json_dumps s r rnow tid batch)) tid
  = Some (Some (length batch)).
Proof.
  unfold get_task_status. rewrite store_runner_lookup. intros Hlog. rewrite Hlog.
  destruct (active_tasks s !! tid) as [t|] eqn:Ht; [by rewrite decide_True|].
  unfold store_crawl_results in Hlog. destruct (mapM json_dumps batch); [|done].
  destruct (Redis.execute _ _ _) as [[[]|e] r']; [|done]. by rewrite Ht in Hlog.
Qed.

(** C10.  A task that has a record keeps one under every sequence of
    operations: [get_task_status] returns it and [get_all_tasks] lists it;
    in particular every id [run_spider] creates stays.  The batch stored for
    it in the cache, in contrast, is gone once more than 3600 seconds have
    passed since the last append. *)
Theorem task_records_never_evicted (w : world) (evs : list event) (tid : string) :
  is_Some (get_task_status (runner w) tid) →
  is_Some (get_task_status (runner (run evs w)) tid)
  ∧ tid ∈ dom (get_all_tasks (runner (run evs w)))
  ∧ (∀ (w0 : world) name kw now,
       is_Some (get_task_status (runner (run evs (step (run_spider_ev tid name kw now) w0))) tid))
  ∧ (∀ r rnow batch l later,
       Redis.available r = true →
       Redis.list_at rnow r ("crawl_results:" +:+ tid) = Some l →
       is_Some (mapM json_dumps batch) →
       (rnow + 3600 < later)%Z →
       let w1 := step (store_crawl_results_ev tid batch rnow)
                   {| runner := runner (run evs w); redis := r |} in
       Redis.find later (redis w1) ("crawl_results:" +:+ tid) = None
       ∧ is_Some (get_task_status (runner w1) tid)).
Proof.
  intros Hw. pose proof (run_keeps_task evs w tid Hw) as Hrun.
  split; [done|]. split; [by apply elem_of_dom|]. split.
  - intros w0 name kw now. apply run_keeps_task. simpl.
    rewrite run_spider_tasks, lookup_insert_eq. eauto.
  - intros r rnow batch l later Hav Hl [payloads Hdumps] Hlater w1. split.
    + destruct (store_crawl_results_redis (runner (run evs w)) r rnow tid batch payloads l)
        as (_ & _ & Hgone & _); [done..|]. by apply Hgone.
    + by apply step_keeps_task.
Qed.

(** *** Further invariants of the registry *)

(** Every step answers for a record it shows: the id was just drawn, or the
    record was there before. *)
Lemma step_lookup_is_Some (ev : event) (w : world) (k : string) :
  is_Some (active_tasks (runner (step ev w)) !! k)
  ↔ is_Some (active_tasks (runner w) !! k) ∨ redraws k ev = true.
Proof.
  split.
  - intros [t' Ht'].
    apply step_record in Ht' as [(name & kw & now & -> & ->)|(t & Ht & _)].
    + right. simpl. by apply bool_decide_eq_true.
    + left. eauto.
  - intros [Hk|Hev]; [by apply step_keeps_task|].
    destruct ev; simpl in Hev; try done. apply bool_decide_eq_true in Hev. subst.
    simpl. rewrite run_spider_tasks, lookup_insert_eq. eauto.
Qed.




(** X1.  The registry knows an id exactly when [run_spider] has drawn it
    before: in a state reached from the empty registry, [get_task_status]
    returns a record for the ids drawn and the endpoint answers 404 for all
    others. *)
Theorem task_known_iff_created (r : Redis.t) (evs : list event) (tid : string) :
  let s := runner (run evs (World init r)) in
  (is_Some (get_task_status s tid) ↔ Exists (λ ev, redraws tid ev = true) evs)
  ∧ (raised (Endpoints.get_task_status s tid) = true
     ↔ Forall (λ ev, redraws tid ev = false) evs).
Proof.
  assert (∀ (w : world), is_Some (active_tasks (runner (run evs w)) !! tid)
            ↔ is_Some (active_tasks (runner w) !! tid)
              ∨ Exists (λ ev, redraws tid ev = true) evs) as Hgen.
  { induction evs as [|ev evs IH]; intros w; simpl.
    - rewrite Exists_nil. tauto.
    - rewrite IH, step_lookup_is_Some, Exists_cons. tauto. }
  simpl. unfold get_task_status.
  assert (is_Some (active_tasks (runner (run evs (World init r))) !! tid)
          ↔ Exists (λ ev, redraws tid ev = true) evs) as Hiff.
  { rewrite Hgen. simpl. rewrite lookup_empty. split; [|by right].
    intros [[? ?]|?]; done. }
  split; [done|].
  unfold Endpoints.get_task_status, get_task_status.
  destruct (active_tasks (runner (run evs (World init r))) !! tid) as [t|] eqn:Hk; simpl.
  - split; [done|]. intros Hall. exfalso.
    assert (Exists (λ ev, redraws tid ev = true) evs) as Hex by (apply Hiff; eauto).
    apply Exists_exists in Hex as (ev & Hin & Hev).
    rewrite Forall_forall in Hall. specialize (Hall ev Hin). congruence.
  - split; [|done]. intros _. apply Forall_forall. intros ev Hin.
    destruct (redraws tid ev) eqn:Hev; [|done]. exfalso.
    assert (is_Some (@None task)) as [? ?]; [|done].
    apply Hiff. apply Exists_exists. eauto.
Qed.

(** The fields a move leaves alone, and the ones it never clears. *)
Lemma task_moves_keeps (s : AsyncSpiderRunner) (k : string) (t t' : task) :
  task_moves s k t t' →
  spider_name t' = spider_name t ∧ kwargs t' = kwargs t ∧ start_time t' = start_time t
  ∧ items t' = items t
  ∧ (is_Some (end_time t) → is_Some (end_time t'))
  ∧ (is_Some (failure_reason t) → is_Some (failure_reason t')).
Proof.
  assert (∀ st result now,
            spider_name (updated st result now t) = spider_name t
            ∧ kwargs (updated st result now t) = kwargs t
            ∧ start_time (updated st result now t) = start_time t
            ∧ items (updated st result now t) = items t
            ∧ (is_Some (end_time t) → is_Some (end_time (updated st result now t)))
            ∧ (is_Some (failure_reason t)
               → is_Some (failure_reason (updated st result now t)))) as Hupd.
  { intros st result now. unfold updated.
    destruct (bool_decide (st = FAILED) && truthy result) eqn:Hb; simpl;
      repeat split; eauto.
    intros _. apply andb_true_iff in Hb as [_ Hb]. destruct result; [eauto|done]. }
  destruct 1; simpl; try apply Hupd; repeat split; eauto.
Qed.

(** X2.  What [run_spider] wrote at creation is never rewritten: under every
    sequence of operations (no [uuid4] collision) a record keeps its
    [spider_name], [kwargs], [start_time] and (empty) [items]; and an
    [end_time] or [failure_reason], once set, is never removed. *)
Theorem creation_fields_immutable (w : world) (evs : list event) (tid : string) (t : task) :
  get_task_status (runner w) tid = Some t →
  Forall (λ ev, redraws tid ev = false) evs →
  ∃ t', get_task_status (runner (run evs w)) tid = Some t'
        ∧ spider_name t' = spider_name t ∧ kwargs t' = kwargs t
        ∧ start_time t' = start_time t ∧ items t' = items t
        ∧ (is_Some (end_time t) → is_Some (end_time t'))
        ∧ (is_Some (failure_reason t) → is_Some (failure_reason t')).
Proof.
  unfold get_task_status. revert w t.
  induction evs as [|ev evs IH]; intros w t Ht Hevs; simpl.
  { exists t. repeat split; eauto. }
  inversion Hevs as [|? ? Hev Hevs']; subst.
  destruct (step_keeps_task ev w tid) as [t1 Ht1]; [by eauto|].
  pose proof Ht1 as Hmove.
  apply step_record in Hmove as [(name & kw & now & -> & ->)|(t0 & Ht0 & Hmove)].
  { simpl in Hev. by rewrite bool_decide_eq_false in Hev. }
  rewrite Ht in Ht0. simplify_eq.
  apply task_moves_keeps in Hmove as (H1 & H2 & H3 & H4 & H5 & H6).
  destruct (IH (step ev w) t1 Ht1 Hevs') as (t' & Ht' & G1 & G2 & G3 & G4 & G5 & G6).
  exists t'. rewrite G1, G2, G3, G4. repeat split; eauto.
Qed.

Lemma record_sound_step (ev : event) (w : world) :
  updates_terminal (runner w) →
  (∀ k t, active_tasks (runner w) !! k = Some t → record_sound t) →
  ∀ k t, active_tasks (runner (step ev w)) !! k = Some t → record_sound t.
Proof.
  intros Hq Hrec k t' Ht'.
  apply step_record in Ht' as [(name & kw & now & -> & ->)|(t & Ht & Hmove)].
  { split; [done|]. by intros [? ?]. }
  destruct (Hrec k t Ht) as [Hpend Hreason]. unfold record_sound.
  destruct Hmove as [|n|st result now rest Hready|name kw error now rest Hready
                    |Hrun|now Hrun|now Hin]; simpl; try done.
  - rewrite updated_status.
    assert (terminal st = true) as Hst.
    { apply (Hq k st result). rewrite Hready. by left. }
    split; [by destruct st|done].
  - by rewrite updated_status.
  - split; [done|]. intros Hsome. apply Hreason in Hsome. by rewrite Hrun in Hsome.
Qed.

Lemma record_sound_run (evs : list event) (w : world) :
  updates_terminal (runner w) →
  (∀ k t, active_tasks (runner w) !! k = Some t → record_sound t) →
  ∀ k t, active_tasks (runner (run evs w)) !! k = Some t → record_sound t.
Proof.
  revert w. induction evs as [|ev evs IH]; intros w Hq Hrec; simpl; [done|].
  apply IH; [by apply updates_terminal_step|by apply record_sound_step].
Qed.

(** X3.  The runner never writes "pending": in every state reached from the
    empty registry the status of a record is RUNNING, STOPPING, COMPLETED,
    FAILED or STOPPED. *)
Theorem status_never_pending (r : Redis.t) (evs : list event) (tid : string) (t : task) :
  get_task_status (runner (run evs (World init r))) tid = Some t →
  status t ≠ PENDING
  ∧ (status t = RUNNING ∨ status t = STOPPING ∨ status t = COMPLETED
     ∨ status t = FAILED ∨ status t = STOPPED).
Proof.
  intros Ht.
  assert (record_sound t) as [Hpend _].
  { eapply (record_sound_run evs (World init r)); [apply registry_inv_init| |exact Ht].
    intros k t0 Hk. simpl in Hk. by rewrite lookup_empty in Hk. }
  split; [done|]. destruct (status t); naive_solver.
Qed.

(** X4.  A record that carries a [failure_reason] is in a terminal state, in
    every state reached from the empty registry (not necessarily FAILED: a
    later callback or stop may have overwritten the status). *)
Theorem failure_reason_only_terminal (r : Redis.t) (evs : list event) (tid : string) (t : task) :
  get_task_status (runner (run evs (World init r))) tid = Some t →
  is_Some (failure_reason t) →
  terminal (status t) = true ∧ is_Some (end_time t).
Proof.
  intros Ht Hreason.
  assert (record_sound t) as [_ Hterm].
  { eapply (record_sound_run evs (World init r)); [apply registry_inv_init| |exact Ht].
    intros k t0 Hk. simpl in Hk. by rewrite lookup_empty in Hk. }
  assert (end_time_iff_terminal t) as Hiff.
  { eapply (registry_inv_run evs (World init r)); [apply registry_inv_init|exact Ht]. }
  split; [by apply Hterm|]. apply Hiff. by apply Hterm.
Qed.

Lemma remove_first_ne (x y : string) (l : list string) :
  x ≠ y → x ∈ l → x ∈ remove_first y l.
Proof.
  intros Hne. induction l as [|z l IH]; simpl; [done|].
  intros Hin. apply elem_of_cons in Hin as [->|Hin].
  - rewrite bool_decide_eq_false_2 by done. by left.
  - case_bool_decide; [done|]. right. by apply IH.
Qed.

Lemma update_task_status_suspended (s : AsyncSpiderRunner) (tid : string) st result now :
  suspended_stops (_update_task_status s tid st result now) = suspended_stops s.
Proof. unfold _update_task_status. by destruct (active_tasks s !! tid). Qed.

Lemma stopping_suspended_step (ev : event) (w : world) :
  updates_terminal (runner w) →
  (∀ k t, active_tasks (runner w) !! k = Some t → status t = STOPPING →
          k ∈ suspended_stops (runner w)) →
  ∀ k t, active_tasks (runner (step ev w)) !! k = Some t → status t = STOPPING →
         k ∈ suspended_stops (runner (step ev w)).
Proof.
  intros Hq Hinv k t'. destruct w as [s r]. simpl in Hq, Hinv.
  destruct ev as [uuid name kw now|crawl now|result tid|failure tid|crawlers tid now
                 |tid teardown now|tid batch rnow|tid| |b]; simpl.
  - rewrite run_spider_tasks, run_spider_suspended, lookup_insert.
    case_decide; [by intros [= <-]|]. apply Hinv.
  - unfold loop_step. destruct (ready s) as [|co rest] eqn:Hready; [apply Hinv|].
    destruct co as [tid name kw|tid st result]; simpl.
    + destruct crawl as [[]|e]; simpl; [apply Hinv|].
      unfold _handle_spider_exception.
      rewrite update_task_status_lookup, update_task_status_suspended; simpl.
      case_decide; [subst|apply Hinv].
      destruct (active_tasks s !! k); [|done]. intros [= <-]. by rewrite updated_status.
    + rewrite update_task_status_lookup, update_task_status_suspended; simpl.
      case_decide; [subst|apply Hinv].
      destruct (active_tasks s !! k); [|done]. intros [= <-]. rewrite updated_status.
      intros ->. assert (terminal STOPPING = true); [|done].
      apply (Hq k STOPPING result). rewrite Hready. by left.
  - unfold _on_spider_success. destruct (being_stopped s tid); apply Hinv.
  - unfold _on_spider_error. destruct (being_stopped s tid); apply Hinv.
  - rewrite stop_task_lookup. destruct (active_tasks s !! k) as [t|] eqn:Hk; [|done].
    assert (status t = STOPPING → k ∈ suspended_stops (stop_task s crawlers tid now).2) as Hold.
    { intros Hst. specialize (Hinv k t Hk Hst). unfold stop_task.
      destruct (active_tasks s !! tid) as [t0|]; [|done].
      destruct (negb _); [done|]. destruct (find_crawler crawlers tid); simpl; [by right|done]. }
    case_decide as Hkk; [subst|by intros [= <-]].
    case_bool_decide as Hrun; [|by intros [= <-]].
    destruct (find_crawler crawlers k) eqn:Hfind; intros [= <-]; [|done].
    intros _. unfold stop_task. rewrite Hk, Hfind, bool_decide_eq_true_2 by done. simpl. by left.
  - case_bool_decide as Hin; simpl; [|apply Hinv].
    pose proof (stop_task_resume_lookup s tid teardown now k) as Hl. simpl in Hl. rewrite Hl.
    assert (suspended_stops (stop_task_resume s tid teardown now).2 = suspended_stops s) as ->
      by (by destruct teardown).
    case_decide; [subst|].
    + destruct (active_tasks s !! k); [|done]. by intros [= <-].
    + intros Hk Hst. apply remove_first_ne; [done|]. by apply (Hinv k t').
  - rewrite store_runner_lookup. destruct (active_tasks s !! k) as [t|] eqn:Hk; [|done].
    assert (suspended_stops (stored_runner (store_crawl_results json_dumps s r rnow tid batch))
            = suspended_stops s) as ->.
    { unfold store_crawl_results. destruct (mapM _ _); [|done].
      destruct (Redis.execute _ _ _) as [[[]|e] r']; [|done].
      by destruct (active_tasks s !! tid). }
    case_decide; [|intros [= <-]; by apply Hinv].
    destruct (logged _); intros [= <-]; simpl; by apply Hinv.
  - apply Hinv.
  - apply Hinv.
  - apply Hinv.
Qed.

Lemma stopping_suspended_run (evs : list event) (w : world) :
  updates_terminal (runner w) →
  (∀ k t, active_tasks (runner w) !! k = Some t → status t = STOPPING →
          k ∈ suspended_stops (runner w)) →
  ∀ k t, active_tasks (runner (run evs w)) !! k = Some t → status t = STOPPING →
         k ∈ suspended_stops (runner (run evs w)).
Proof.
  revert w. induction evs as [|ev evs IH]; intros w Hq Hinv; simpl; [done|].
  apply IH; [by apply updates_terminal_step|by apply stopping_suspended_step].
Qed.

(** X5.  A task is never left STOPPING without a [stop_task] call waiting
    for its teardown: in every state reached from the empty registry a
    STOPPING record has its id among the suspended stops, and the end of
    that call makes it STOPPED. *)
Theorem stopping_has_stop_in_flight (r : Redis.t) (evs : list event) (tid : string) (t : task) :
  let w := run evs (World init r) in
  get_task_status (runner w) tid = Some t →
  status t = STOPPING →
  tid ∈ suspended_stops (runner w)
  ∧ ∀ teardown now, status_of (step (stop_resume_ev tid teardown now) w) tid = Some STOPPED.
Proof.
  intros w Ht Hst.
  assert (tid ∈ suspended_stops (runner w)) as Hin.
  { apply (stopping_suspended_run evs (World init r)) with t; [apply registry_inv_init| |done..].
    intros k t0 Hk. simpl in Hk. by rewrite lookup_empty in Hk. }
  split; [done|]. intros teardown now.
  unfold status_of, get_task_status in *. simpl.
  rewrite bool_decide_eq_true_2 by done. simpl.
  pose proof (stop_task_resume_lookup (runner w) tid teardown now tid) as Hl.
  simpl in Hl. by rewrite Hl, decide_True, Ht.
Qed.

(** X6.  The ordinary end of a job.  For a task that is not being stopped,
    with nothing else waiting in the event loop, a completion callback
    followed by the update it created leaves the record COMPLETED with
    [end_time] the time of the update; a failure callback leaves it FAILED,
    with the error as [failure_reason] unless the error text is empty, in
    which case the reason is not written. *)
Theorem callback_then_update (w : world) (tid : string) (t : task)
    (result : option string) (failure : string) (crawl : outcome unit) (now : time) :
  get_task_status (runner w) tid = Some t →
  stop_requested (status t) = false →
  ready (runner w) = [] →
  get_task_status (runner (run [spider_success_ev result tid; loop_step_ev crawl now] w)) tid
  = Some (set_end_time now (set_status COMPLETED t))
  ∧ get_task_status (runner (run [spider_error_ev failure tid; loop_step_ev crawl now] w)) tid
    = Some (if bool_decide (failure = "") then set_end_time now (set_status FAILED t)
            else set_failure_reason (Some failure) (set_end_time now (set_status FAILED t)))
  ∧ ready (runner (run [spider_success_ev result tid; loop_step_ev crawl now] w)) = []
  ∧ ready (runner (run [spider_error_ev failure tid; loop_step_ev crawl now] w)) = [].
Proof.
  intros Ht Hst Hready. destruct w as [s r]. simpl in *. unfold get_task_status in *.
  assert (being_stopped s tid = false) as Hb by (unfold being_stopped; by rewrite Ht).
  unfold _on_spider_success, _on_spider_error. rewrite Hb.
  unfold loop_step, create_task. simpl. rewrite Hready. simpl.
  rewrite !update_task_status_lookup, !decide_True by done. simpl. rewrite Ht. simpl.
  unfold updated, _update_task_status. simpl. rewrite Ht. simpl.
  repeat split; try done.
  by destruct (bool_decide (failure = "")).
Qed.

(** X7.  A job that cannot be launched.  When the keyword arguments have
    no "task_id" of their own, [run_spider] has already returned the id when
    [_run_spider_task] runs; if [crawl] raises there, the record becomes
    FAILED with [end_time] set and the text of the exception as
    [failure_reason] (none if the text is empty); if it does not, the record
    stays as created. *)
Theorem launch_failure_recorded (w : world) (uuid4 name : string) (kw : pydict)
    (e : exn) (t0 t1 : time) :
  ready (runner w) = [] →
  has_key kw "task_id" = false →
  let w1 := step (run_spider_ev uuid4 name kw t0) w in
  (run_spider (runner w) uuid4 name kw t0).1 = Return uuid4
  ∧ get_task_status (runner (step (loop_step_ev (Raise e) t1) w1)) uuid4
    = Some (let t := set_end_time t1 (set_status FAILED (fresh_task name kw t0)) in
            if bool_decide (exn_str e = "") then t
            else set_failure_reason (Some (exn_str e)) t)
  ∧ get_task_status (runner (step (loop_step_ev (Return ()) t1) w1)) uuid4
    = Some (fresh_task name kw t0).
Proof.
  intros Hready Hkw. destruct w as [s r]. simpl in *. unfold get_task_status.
  unfold SpiderRunner.run_spider. rewrite Hkw.
  unfold loop_step, create_task. simpl. rewrite Hready. simpl.
  unfold _handle_spider_exception.
  rewrite update_task_status_lookup, decide_True by done. simpl.
  rewrite !lookup_insert_eq. simpl. repeat split; try done.
  unfold updated. simpl. by destruct (bool_decide (exn_str e = "")).
Qed.

Lemma store_touches_only_items_count_aux (s : AsyncSpiderRunner) (r : Redis.t) (rnow : Z)
    (tid : string) (batch : list pydict) :
  returned (store_crawl_results json_dumps s r rnow tid batch) = Return ()
  ∧ (is_Some (logged (store_crawl_results json_dumps s r rnow tid batch)) →
     stored_runner (store_crawl_results json_dumps s r rnow tid batch) = s).
Proof.
  unfold store_crawl_results. destruct (mapM _ _); [|done].
  destruct (Redis.execute _ _ _) as [[[]|e] r']; [|done].
  destruct (_ !! _); [|done]. split; [done|]. by intros [? ?].
Qed.

(** X8.  [store_crawl_results] never raises and never touches anything in
    the registry but the [items_count] of its own task: the event-loop queue,
    the suspended stops and every other record stay as they are, and the
    record of the task is unchanged when an error was logged and has
    [items_count] set to the size of the batch when none was. *)
Theorem store_touches_only_items_count (s : AsyncSpiderRunner) (r : Redis.t) (rnow : Z)
    (tid : string) (batch : list pydict) :
  let res := store_crawl_results json_dumps s r rnow tid batch in
  returned res = Return ()
  ∧ ready (stored_runner res) = ready s
  ∧ suspended_stops (stored_runner res) = suspended_stops s
  ∧ (∀ k, k ≠ tid → get_task_status (stored_runner res) k = get_task_status s k)
  ∧ (is_Some (logged res) → stored_runner res = s)
  ∧ (logged res = None →
     ∃ t, get_task_status s tid = Some t
          ∧ get_task_status (stored_runner res) tid = Some (set_items_count (length batch) t)).
Proof.
  simpl. unfold get_task_status.
  split; [|split; [|split; [|split; [|split]]]].
  - unfold store_crawl_results. destruct (mapM _ _); [|done].
    destruct (Redis.execute _ _ _) as [[[]|e] r']; [|done]. by destruct (_ !! _).
  - unfold store_crawl_results. destruct (mapM _ _); [|done].
    destruct (Redis.execute _ _ _) as [[[]|e] r']; [|done]. by destruct (_ !! _).
  - unfold store_crawl_results. destruct (mapM _ _); [|done].
    destruct (Redis.execute _ _ _) as [[[]|e] r']; [|done]. by destruct (_ !! _).
  - intros k Hk. rewrite store_runner_lookup. destruct (active_tasks s !! k); [|done].
    by rewrite decide_False.
  - unfold store_crawl_results. destruct (mapM _ _); [|done].
    destruct (Redis.execute _ _ _) as [[[]|e] r']; [|done].
    destruct (_ !! _); [|done]. by intros [? ?].
  - intros Hlog. rewrite store_runner_lookup, Hlog.
    destruct (active_tasks s !! tid) as [t|] eqn:Ht.
    + exists t. by rewrite decide_True.
    + exfalso. unfold store_crawl_results in Hlog. destruct (mapM _ _); [|done].
      destruct (Redis.execute _ _ _) as [[[]|e] r']; [|done]. by rewrite Ht in Hlog.
Qed.

(** X9.  A batch for a task the registry does not know is stored all the
    same: with the cache available and the batch serializable, the payloads
    are appended to the list of that id and can be read, while the registry
    stays as it is and the lookup error is only logged. *)
Theorem store_for_unknown_task (s : AsyncSpiderRunner) (r : Redis.t) (rnow : Z)
    (tid : string) (batch : list pydict) (payloads l : list string) :
  Redis.available r = true →
  Redis.list_at rnow r ("crawl_results:" +:+ tid) = Some l →
  mapM json_dumps batch = Some payloads →
  get_task_status s tid = None →
  let res := store_crawl_results json_dumps s r rnow tid batch in
  returned res = Return ()
  ∧ is_Some (logged res)
  ∧ stored_runner res = s
  ∧ Redis.list_at rnow (stored_redis res) ("crawl_results:" +:+ tid) = Some (l ++ payloads).
Proof.
  intros Hav Hl Hdumps Hnone.
  destruct (store_crawl_results_redis s r rnow tid batch payloads l Hav Hl Hdumps)
    as (_ & Hlive & _ & Hlog).
  unfold get_task_status in Hnone. rewrite Hnone in Hlog.
  destruct (store_touches_only_items_count_aux s r rnow tid batch) as (Hret & Hsame).
  simpl. repeat split; [done|by rewrite Hlog|apply Hsame; by rewrite Hlog|apply Hlive; lia].
Qed.

(** X25.  A stop can lose against a callback that fired just before it.
    When the completion callback of a RUNNING task has created its update,
    a [stop_task] that runs before the update and finds no crawler returns
    true and shows the task STOPPED; the update then runs and the task is
    COMPLETED. *)
Theorem queued_update_overrides_stop (w : world) (tid : string) (t : task)
    (result : option string) (crawlers : list crawler) (crawl : outcome unit)
    (now1 now2 : time) :
  get_task_status (runner w) tid = Some t →
  status t = RUNNING →
  ready (runner w) = [] →
  find_crawler crawlers tid = None →
  let w1 := step (spider_success_ev result tid) w in
  (stop_task (runner w1) crawlers tid now1).1 = Finished true
  ∧ status_of (step (stop_task_ev crawlers tid now1) w1) tid = Some STOPPED
  ∧ status_of (run [stop_task_ev crawlers tid now1; loop_step_ev crawl now2] w1) tid
    = Some COMPLETED.
Proof.
  intros Ht Hrun Hready Hfind. destruct w as [s r]. simpl in *.
  unfold get_task_status, status_of, get_task_status in *. simpl.
  assert (being_stopped s tid = false) as Hb by (unfold being_stopped; by rewrite Ht, Hrun).
  unfold _on_spider_success. rewrite Hb.
  assert (active_tasks (create_task (update_task_status_co tid COMPLETED result) s) !! tid
          = Some t) as Ht1 by done.
  split; [|split].
  - unfold stop_task. by rewrite Ht1, Hfind, bool_decide_eq_true_2.
  - by rewrite stop_task_lookup, Ht1, decide_True, Hfind, bool_decide_eq_true_2.
  - assert (ready (stop_task (create_task (update_task_status_co tid COMPLETED result) s)
                     crawlers tid now1).2
            = [update_task_status_co tid COMPLETED result]) as Hq.
    { unfold stop_task. rewrite Ht1, Hfind, bool_decide_eq_true_2 by done. simpl.
      by rewrite Hready. }
    unfold loop_step. rewrite Hq. simpl.
    rewrite update_task_status_lookup, decide_True by done. simpl.
    by rewrite stop_task_lookup, Ht1, decide_True, Hfind, bool_decide_eq_true_2.
Qed.

End RegistryProperties.


(** * Properties of the result store *)

Section ResultStoreProperties.

Context {pydict time : Type}.
Context (json_dumps : pydict → option string).
Context (json_loads : string → option pydict).

Import SpiderRunner Endpoints.

Abbreviation AsyncSpiderRunner := (@SpiderRunner.AsyncSpiderRunner pydict time).

Local Open Scope Z_scope.

Lemma mapM_slice (stored : list string) (records : list pydict) (n m : nat) :
  mapM json_loads stored = Some records →
  mapM json_loads (take n (drop m stored)) = Some (take n (drop m records)).
Proof.
  rewrite !mapM_Some. intros H. by apply Forall2_take, Forall2_drop.
Qed.

Lemma get_crawl_results_page (r : Redis.t) (now : Z) (r' : Redis.t) (now' : Z)
    (tid : string) (stored stored' : list string) (records : list pydict) (start limit : Z) :
  shows tid stored (r, now) →
  shows tid stored' (r', now') →
  mapM json_loads stored = Some records →
  0 ≤ start → 1 ≤ limit ≤ 1000 → start + limit - 1 < 2 ^ 63 →
  get_crawl_results json_loads r now r' now' tid start limit
  = Return {| task_id := tid;
              items := slice records start limit;
              page := {| start := start; limit := limit;
                         total := Z.of_nat (length stored');
                         has_more := start + limit <? Z.of_nat (length stored') |} |}.
Proof.
  intros [Hav Hl] [Hav' Hl'] Hloads Hstart Hlimit Hbound. simpl in *.
  unfold get_crawl_results, valid_query.
  rewrite (proj2 (Z.leb_le 0 start)), (proj2 (Z.leb_le 1 limit)),
    (proj2 (Z.leb_le limit 1000)) by lia. simpl.
  unfold Redis.lrange, Redis.llen, Redis.int64. rewrite Hav, Hav'.
  rewrite (proj2 (Z.leb_le (- 2 ^ 63) start)), (proj2 (Z.ltb_lt start (2 ^ 63))),
    (proj2 (Z.leb_le (- 2 ^ 63) (start + limit - 1))),
    (proj2 (Z.ltb_lt (start + limit - 1) (2 ^ 63))) by lia.
  cbn [andb negb].
  unfold Redis.list_at in Hl, Hl'.
  destruct (Redis.find now' r' ("crawl_results:" +:+ tid)) as [[[n'|l'] ex']|]; simplify_eq;
    destruct (Redis.find now r ("crawl_results:" +:+ tid)) as [[[n|l] ex]|]; simplify_eq.
  - rewrite range_take_drop by lia.
    replace (start + limit - 1 - start + 1) with limit by lia.
    by rewrite (mapM_slice _ records) by done.
  - apply mapM_Some, Forall2_nil_inv_l in Hloads. subst records.
    unfold slice. by rewrite drop_nil, take_nil.
  - rewrite range_take_drop by lia.
    replace (start + limit - 1 - start + 1) with limit by lia.
    by rewrite (mapM_slice _ records) by done.
  - apply mapM_Some, Forall2_nil_inv_l in Hloads. subst records.
    unfold slice. by rewrite drop_nil, take_nil.
Qed.

Lemma slice_beyond (records : list pydict) (start limit : Z) :
  0 ≤ start → Z.of_nat (length records) ≤ start + limit →
  slice records start limit = drop (Z.to_nat start) records.
Proof. intros Hstart Hlen. unfold slice. apply take_ge. rewrite length_drop. lia. Qed.

Lemma slice_pages (records : list pydict) :
  slice records 0 10 ++ slice records 10 10 = take 20 records.
Proof.
  unfold slice. change (Z.to_nat 0) with 0%nat. change (Z.to_nat 10) with 10%nat.
  rewrite drop_0. apply (take_take_drop records 10 10).
Qed.

(** C6, as the code has it.  When the key of a task holds the sequence
    [stored] of N payloads that parse to [records], and both cache commands
    of a read find it, a read with [start] at least 0, [limit] between 1 and
    1000 and start+limit-1 below 2^63 returns exactly the records at
    positions start up to start+limit, in stored order, with [total] N and
    [has_more] true exactly when start+limit is below N; beyond the end it
    returns what is there and [has_more] false.  The pages (0,10) and
    (10,10) are positions 0..9 and 10..19: they do not overlap and together
    are the first 20 records.  When records were appended between the two
    commands of a read, the page is cut from the sequence LRANGE found, and
    [total] and [has_more] are taken from the length LLEN found. *)
Theorem get_crawl_results_slice (r : Redis.t) (now : Z) (r' : Redis.t) (now' : Z)
    (tid : string) (stored : list string) (records : list pydict) (start limit : Z) :
  shows tid stored (r, now) →
  shows tid stored (r', now') →
  mapM json_loads stored = Some records →
  0 ≤ start → 1 ≤ limit ≤ 1000 → start + limit - 1 < 2 ^ 63 →
  let N := Z.of_nat (length records) in
  get_crawl_results json_loads r now r' now' tid start limit
  = Return {| task_id := tid;
              items := take (Z.to_nat limit) (drop (Z.to_nat start) records);
              page := {| start := start; limit := limit; total := N;
                         has_more := start + limit <? N |} |}
  ∧ (N ≤ start + limit →
     (start + limit <? N) = false
     ∧ take (Z.to_nat limit) (drop (Z.to_nat start) records) = drop (Z.to_nat start) records)
  ∧ (∃ p1 p2,
       get_crawl_results json_loads r now r' now' tid 0 10 = Return p1
       ∧ get_crawl_results json_loads r now r' now' tid 10 10 = Return p2
       ∧ items p1 = take 10 records
       ∧ items p2 = take 10 (drop 10 records)
       ∧ items p1 ++ items p2 = take 20 records)
  ∧ (∀ r2 now2 stored2,
       shows tid stored2 (r2, now2) →
       get_crawl_results json_loads r now r2 now2 tid start limit
       = Return {| task_id := tid;
                   items := take (Z.to_nat limit) (drop (Z.to_nat start) records);
                   page := {| start := start; limit := limit;
                              total := Z.of_nat (length stored2);
                              has_more := start + limit <? Z.of_nat (length stored2) |} |}).
Proof.
  intros Hv Hv' Hloads Hstart Hlimit Hbound N.
  pose proof (length_mapM _ _ _ Hloads) as Hlen.
  split; [|split; [|split]].
  - unfold N. rewrite <- Hlen. by apply (get_crawl_results_page r now r' now' tid stored stored).
  - intros HN. split; [by apply Z.ltb_ge|]. by apply slice_beyond.
  - do 2 eexists. split; [|split].
    + by apply (get_crawl_results_page r now r' now' tid stored stored records 0 10).
    + by apply (get_crawl_results_page r now r' now' tid stored stored records 10 10).
    + simpl. split; [|split]; [done..|]. apply slice_pages.
  - intros r2 now2 stored2 Hv2.
    by apply (get_crawl_results_page r now r2 now2 tid stored stored2).
Qed.

(** C5, as the code has it.  With the cache unavailable the read operation
    fails: [get_crawl_results] raises an HTTP 500 error to its caller, also
    when the cache has only gone by the second of its two commands.  The
    append operation does not: [store_crawl_results] logs the error and
    returns normally, leaving the cache and the registry as they were, and
    [StoragePipeline.process_item] hands the item on as if it were stored. *)
Theorem cache_unavailable_behaviour (s : AsyncSpiderRunner) (r : Redis.t) (now : Z)
    (tid : string) (batch : list pydict) (start limit : Z) :
  Redis.available r = false →
  (valid_query start limit = true →
   (∀ r' now',
      get_crawl_results json_loads r now r' now' tid start limit
      = Raise (HTTPException 500 ("获取结果失败: " +:+ exn_str Redis.unavailable_error)))
   ∧ (∀ r0 now0,
        raised (get_crawl_results json_loads r0 now0 r now tid start limit) = true))
  ∧ (let res := store_crawl_results json_dumps s r now tid batch in
     returned res = Return ()
     ∧ is_Some (logged res)
     ∧ stored_runner res = s
     ∧ stored_redis res = r)
  ∧ (∀ self item sp,
       let p := Pipelines.process_item json_dumps self item
                  {| Pipelines.stats := sp; Pipelines.task_id := Some tid |} s r now in
       Pipelines.result p = Return item
       ∧ Pipelines.processed_runner p = s
       ∧ Pipelines.processed_redis p = r).
Proof.
  intros Hav.
  assert (∀ batch', let res := store_crawl_results json_dumps s r now tid batch' in
            returned res = Return () ∧ is_Some (logged res)
            ∧ stored_runner res = s ∧ stored_redis res = r) as Hstore.
  { intros batch'. unfold store_crawl_results, Redis.execute. rewrite Hav.
    destruct (mapM json_dumps batch'); simpl; eauto. }
  split; [|split].
  - intros Hvalid. split.
    + intros r' now'. unfold get_crawl_results, Redis.lrange. by rewrite Hvalid, Hav.
    + intros r0 now0. unfold get_crawl_results, Redis.llen. rewrite Hvalid, Hav. simpl.
      destruct (Redis.lrange _ _ _ _ _); [|done]. by destruct (mapM _ _).
  - apply Hstore.
  - intros self item sp. destruct (Hstore [item]) as (Hret & _ & Hs & Hr).
    unfold Pipelines.process_item. destruct sp as [st|]; simpl; by rewrite Hret, ?Hs, ?Hr.
Qed.

(** *** Reading what was stored *)

Lemma mapM_loads_dumps (batch : list pydict) (payloads : list string) :
  (∀ x p, json_dumps x = Some p → json_loads p = Some x) →
  mapM json_dumps batch = Some payloads →
  mapM json_loads payloads = Some batch.
Proof.
  intros Hround. rewrite !mapM_Some. intros H.
  induction H as [|x p batch payloads Hx _ IH]; constructor; eauto.
Qed.

Lemma mapM_loads_app (l1 l2 : list string) (k1 k2 : list pydict) :
  mapM json_loads l1 = Some k1 → mapM json_loads l2 = Some k2 →
  mapM json_loads (l1 ++ l2) = Some (k1 ++ k2).
Proof. rewrite !mapM_Some. apply Forall2_app. Qed.

(** X10.  Append then read.  When [json.loads] undoes [json.dumps], a batch
    stored into an available cache is read back, up to the 3600th second
    after the append, behind the records that were there: a read with
    start+limit-1 below 2^63 whose two commands reach the cache in that time,
    with nothing appended meanwhile, returns the page of the old records
    followed by the batch, and [total] is the sum of both sizes. *)
Theorem read_after_store (s : AsyncSpiderRunner) (r : Redis.t) (rnow later later' : Z)
    (tid : string) (batch : list pydict) (payloads stored : list string)
    (records : list pydict) (start limit : Z) :
  (∀ x p, json_dumps x = Some p → json_loads p = Some x) →
  shows tid stored (r, rnow) →
  mapM json_loads stored = Some records →
  mapM json_dumps batch = Some payloads →
  rnow ≤ later → later ≤ later' → later' ≤ rnow + 3600 →
  0 ≤ start → 1 ≤ limit ≤ 1000 → start + limit - 1 < 2 ^ 63 →
  let r' := stored_redis (store_crawl_results json_dumps s r rnow tid batch) in
  let N := Z.of_nat (length records + length batch) in
  get_crawl_results json_loads r' later r' later' tid start limit
  = Return {| task_id := tid;
              items := take (Z.to_nat limit) (drop (Z.to_nat start) (records ++ batch));
              page := {| start := start; limit := limit; total := N;
                         has_more := start + limit <? N |} |}.
Proof.
  intros Hround [Hav Hl] Hloads Hdumps H1 H2 H3 Hstart Hlimit Hbound r' N. simpl in *.
  destruct (store_crawl_results_redis json_dumps s r rnow tid batch payloads stored Hav Hl Hdumps)
    as (Hav' & Hlive & _ & _).
  assert (mapM json_loads (stored ++ payloads) = Some (records ++ batch)) as Hall.
  { apply mapM_loads_app; [done|]. by apply mapM_loads_dumps. }
  pose proof (length_mapM _ _ _ Hall) as Hlen.
  pose proof (get_crawl_results_page r' later r' later' tid (stored ++ payloads)
                (stored ++ payloads) (records ++ batch) start limit) as Hpage.
  unfold N. rewrite <- length_app, <- Hlen.
  apply Hpage; [split; [exact Hav'|apply Hlive; simpl; lia]..|done|done|done|done].
Qed.

(** X11.  Results of a task whose key does not exist (never stored, or
    expired) are an empty page, not an error: no items, [total] 0 and
    [has_more] false, for every valid query with start+limit-1 below 2^63.
    Beyond that bound the read is answered 500 although there is nothing
    under the key, because the indices are refused first. *)
Theorem results_of_missing_key (r : Redis.t) (now : Z) (r' : Redis.t) (now' : Z)
    (tid : string) (start limit : Z) :
  Redis.available r = true →
  Redis.available r' = true →
  Redis.find now r ("crawl_results:" +:+ tid) = None →
  Redis.find now' r' ("crawl_results:" +:+ tid) = None →
  valid_query start limit = true →
  (start + limit - 1 < 2 ^ 63 →
   get_crawl_results json_loads r now r' now' tid start limit
   = Return {| task_id := tid; items := [];
               page := {| start := start; limit := limit; total := 0; has_more := false |} |})
  ∧ (2 ^ 63 ≤ start + limit - 1 →
     get_crawl_results json_loads r now r' now' tid start limit
     = Raise (HTTPException 500 ("获取结果失败: " +:+ exn_str Redis.not_an_integer_error))).
Proof.
  intros Hav Hav' Hfind Hfind' Hvalid. unfold get_crawl_results, Redis.lrange, Redis.llen.
  rewrite Hvalid, Hav, Hav', Hfind, Hfind'. simpl.
  unfold valid_query in Hvalid. apply andb_true_iff in Hvalid as [Hvalid H3].
  apply andb_true_iff in Hvalid as [H1 H2].
  apply Z.leb_le in H1, H2, H3. unfold Redis.int64. split; intros Hbound.
  - rewrite (proj2 (Z.leb_le (- 2 ^ 63) start)), (proj2 (Z.ltb_lt start (2 ^ 63))),
      (proj2 (Z.leb_le (- 2 ^ 63) (start + limit - 1))),
      (proj2 (Z.ltb_lt (start + limit - 1) (2 ^ 63))) by lia.
    simpl. by rewrite (proj2 (Z.ltb_ge (start + limit) 0)) by lia.
  - rewrite (proj2 (Z.ltb_ge (start + limit - 1) (2 ^ 63))) by lia.
    by rewrite andb_false_r, andb_false_r.
Qed.

(** X12.  Pages follow one another.  While the key holds the same sequence
    at every cache command of the two reads, a page of [a] places from
    [start] and the page of [b] places that begins where it ends (with
    start+a+b-1 below 2^63) are together the first a+b records from [start]
    on; [has_more] of the first page is true exactly when the next page is
    not empty, and when it is false the first page reaches the end of the
    records. *)
Theorem adjacent_pages (v1 v1' v2 v2' : view) (tid : string)
    (stored : list string) (records : list pydict) (start a b : Z) :
  Forall (shows tid stored) [v1; v1'; v2; v2'] →
  mapM json_loads stored = Some records →
  0 ≤ start → 1 ≤ a ≤ 1000 → 1 ≤ b ≤ 1000 → start + a + b - 1 < 2 ^ 63 →
  ∃ p1 p2,
    get_crawl_results json_loads v1.1 v1.2 v1'.1 v1'.2 tid start a = Return p1
    ∧ get_crawl_results json_loads v2.1 v2.2 v2'.1 v2'.2 tid (start + a) b = Return p2
    ∧ items p1 ++ items p2 = take (Z.to_nat (a + b)) (drop (Z.to_nat start) records)
    ∧ (has_more (page p1) = true ↔ items p2 ≠ [])
    ∧ (has_more (page p1) = false → items p1 = drop (Z.to_nat start) records).
Proof.
  intros Hviews Hloads Hstart Ha Hb Hbound.
  pose proof (length_mapM _ _ _ Hloads) as Hlen.
  apply Forall_cons in Hviews as [H1 Hviews]. apply Forall_cons in Hviews as [H1' Hviews].
  apply Forall_cons in Hviews as [H2 Hviews]. apply Forall_cons in Hviews as [H2' _].
  destruct v1 as [r1 t1], v1' as [r1' t1'], v2 as [r2 t2], v2' as [r2' t2'].
  do 2 eexists. split; [|split].
  - apply (get_crawl_results_page r1 t1 r1' t1' tid stored stored records start a);
      [done..|lia].
  - apply (get_crawl_results_page r2 t2 r2' t2' tid stored stored records (start + a) b);
      [done..|lia|done|lia].
  - simpl. unfold slice. rewrite Hlen. split; [|split].
    + replace (Z.to_nat (start + a)) with (Z.to_nat start + Z.to_nat a)%nat by lia.
      rewrite <- drop_drop. replace (Z.to_nat (a + b)) with (Z.to_nat a + Z.to_nat b)%nat by lia.
      apply take_take_drop.
    + rewrite Z.ltb_lt. split.
      * intros Hlt Hnil. apply (f_equal length) in Hnil.
        rewrite length_take, length_drop in Hnil. simpl in Hnil. lia.
      * intros Hne. destruct (Z.lt_ge_cases (start + a) (Z.of_nat (length records))) as [|Hge];
          [done|]. exfalso. apply Hne. rewrite drop_ge by lia. apply take_nil.
    + intros Hmore. apply Z.ltb_ge in Hmore. apply take_ge. rewrite length_drop. lia.
Qed.

(** *** The storage stage of the item pipeline *)

Lemma process_item_hands_on (self : Pipelines.StoragePipeline) (item : pydict)
    (sp : Pipelines.spider) (s : AsyncSpiderRunner) (r : Redis.t) (now : Z) :
  let p := Pipelines.process_item json_dumps self item sp s r now in
  Pipelines.result p = Return item
  ∧ Pipelines.stored_count (Pipelines.pipeline p) = (Pipelines.stored_count self + 1)%nat
  ∧ Pipelines.task_id (Pipelines.processed_spider p) = Pipelines.task_id sp
  ∧ (is_Some (Pipelines.stats sp) →
     Pipelines.stats (Pipelines.processed_spider p) ≫= (.!! "stored_count")
     = Some (Pipelines.stored_count self + 1)%nat).
Proof.
  unfold Pipelines.process_item.
  assert (∀ tid, returned (store_crawl_results json_dumps s r now tid [item]) = Return ()) as Hret.
  { intros tid. unfold store_crawl_results. destruct (mapM _ _); [|done].
    destruct (Redis.execute _ _ _) as [[[]|e] r']; [|done]. by destruct (_ !! _). }
  destruct sp as [[st|] [tid|]]; simpl; rewrite ?Hret; simpl;
    repeat split; try done; try (by intros [? ?]); intros _; by rewrite lookup_insert_eq.
Qed.

(** X13.  [StoragePipeline] hands every item on and counts it, whatever
    became of the write: after any list of items, none was dropped and
    [stored_count] has grown by their number, also when the cache is down,
    an item does not serialize or the task is unknown. *)
Theorem storage_pipeline_counts_every_item (items : list pydict) :
  ∀ (self : Pipelines.StoragePipeline) (sp : Pipelines.spider)
    (s : AsyncSpiderRunner) (r : Redis.t) (now : Z),
    let res := Pipelines.process_items json_dumps self items sp s r now in
    res.1 = Return <$> items
    ∧ Pipelines.stored_count (Pipelines.pipeline res.2)
      = (Pipelines.stored_count self + length items)%nat.
Proof.
  induction items as [|item items IH]; intros self sp s r now.
  { simpl. split; [done|lia]. }
  destruct (process_item_hands_on self item sp s r now) as (Hres & Hcount & _).
  destruct items as [|item' items].
  { simpl. rewrite Hres, Hcount. split; [done|simpl; lia]. }
  specialize (IH (Pipelines.pipeline (Pipelines.process_item json_dumps self item sp s r now))
                 (Pipelines.processed_spider (Pipelines.process_item json_dumps self item sp s r now))
                 (Pipelines.processed_runner (Pipelines.process_item json_dumps self item sp s r now))
                 (Pipelines.processed_redis (Pipelines.process_item json_dumps self item sp s r now))
                 now).
  cbn zeta in IH. destruct IH as [IH1 IH2].
  change (Pipelines.process_items json_dumps self (item :: item' :: items) sp s r now)
    with (let p := Pipelines.process_item json_dumps self item sp s r now in
          let '(os, q) := Pipelines.process_items json_dumps (Pipelines.pipeline p)
                            (item' :: items) (Pipelines.processed_spider p)
                            (Pipelines.processed_runner p) (Pipelines.processed_redis p) now in
          (Pipelines.result p :: os, q)).
  cbn zeta.
  destruct (Pipelines.process_items json_dumps _ (item' :: items) _ _ _ now) as [os q].
  simpl in IH1, IH2 |- *. rewrite Hres, IH1, IH2, Hcount. split; [done|simpl; lia].
Qed.

End ResultStoreProperties.

(** * Properties of the rate limiter *)

Section RateLimiterProperties.

Import Redis Dependencies.

Local Open Scope Z_scope.

(** The first request of a window: no live counter, so it is admitted and
    the counter starts at 1 with 60 seconds to live. *)
Lemma call_first (self : RateLimiter) (r : Redis.t) (now : Z) (ip : string) :
  available r = true →
  find now r (redis_key ip) = None →
  __call__ self r now ip
  = (Return (), put r (redis_key ip) (Entry (VInt 1) (Some (now + 60)))).
Proof.
  intros Hav Hfind. unfold __call__, get, setex. by rewrite Hav, Hfind.
Qed.

(** A request that finds the counter at [n]. *)
Lemma call_counted (self : RateLimiter) (r : Redis.t) (now : Z) (ip : string) (n d : Z) :
  available r = true →
  db r !! redis_key ip = Some (Entry (VInt n) (Some d)) →
  now ≤ d →
  __call__ self r now ip
  = if requests_per_minute self <=? n then (rejection, r)
    else (Return (), put r (redis_key ip) (Entry (VInt (n + 1)) (Some d))).
Proof.
  intros Hav Hdb Hnow.
  assert (find now r (redis_key ip) = Some (Entry (VInt n) (Some d))) as Hfind.
  { unfold find, live. rewrite Hdb. simpl. by rewrite bool_decide_eq_true_2. }
  unfold __call__, get, incr. rewrite Hav, Hfind.
  by destruct (requests_per_minute self <=? n).
Qed.

(** Requests inside an open window whose counter stands at [m]. *)
Lemma serve_window (self : RateLimiter) (ip : string) (d : Z) (ts : list Z) :
  ∀ (r : Redis.t) (m : Z),
    available r = true →
    db r !! redis_key ip = Some (Entry (VInt m) (Some d)) →
    Forall (λ t, t ≤ d) ts →
    m ≤ requests_per_minute self →
    ∃ os r',
      serve self ip ts r = (os, r')
      ∧ length os = length ts
      ∧ (∀ (i : nat) o, os !! i = Some o →
           o = if m + Z.of_nat i <? requests_per_minute self then Return () else rejection)
      ∧ available r' = true
      ∧ db r' !! redis_key ip
        = Some (Entry (VInt (Z.min (m + Z.of_nat (length ts)) (requests_per_minute self)))
                      (Some d)).
Proof.
  induction ts as [|t ts IH]; intros r m Hav Hdb Hts Hm.
  { exists [], r. simpl. repeat split; try done.
    rewrite Z.add_0_r, Z.min_l by done. done. }
  inversion Hts as [|? ? Ht Hts']; subst.
  cbn [serve]. rewrite (call_counted self r t ip m d) by done.
  destruct (Z.leb_spec (requests_per_minute self) m) as [Hfull|Hroom].
  - destruct (IH r m) as (os & r' & Hserve & Hlen & Hos & Hav' & Hdb'); [done..|].
    exists (rejection :: os), r'. rewrite Hserve. repeat split; try done.
    + simpl. by rewrite Hlen.
    + intros [|i] o Ho; simpl in Ho; simplify_eq.
      * rewrite (proj2 (Z.ltb_ge _ _)); [done|lia].
      * rewrite (Hos i o Ho). rewrite !(proj2 (Z.ltb_ge _ _)); [done|lia..].
    + rewrite Hdb'. do 3 f_equal. simpl length. lia.
  - destruct (IH (put r (redis_key ip) (Entry (VInt (m + 1)) (Some d))) (m + 1))
      as (os & r' & Hserve & Hlen & Hos & Hav' & Hdb'); [done| |done|lia|].
    { simpl. by rewrite lookup_insert_eq. }
    exists (Return () :: os), r'. rewrite Hserve. repeat split; try done.
    + simpl. by rewrite Hlen.
    + intros [|i] o Ho; simpl in Ho; simplify_eq.
      * rewrite (proj2 (Z.ltb_lt _ _)); [done|lia].
      * rewrite (Hos i o Ho). by replace (m + 1 + Z.of_nat i) with (m + Z.of_nat (S i)) by lia.
    + rewrite Hdb'. do 3 f_equal. simpl length. lia.
Qed.

(** C8, for a ceiling of at least 1.  Of the requests of one client in a
    window opened by a request at [t0], which lasts up to and including
    second t0+60, the first sets the counter to 1, each later one that is
    admitted adds 1, the first [c] are admitted and every one after them
    (the (c+1)-th first of all) is rejected with 429, the counter staying at
    [c]; the first request after the window, at any time later than t0+60,
    is admitted and the counter is 1 again. *)
Theorem fixed_window_counter (self : RateLimiter) (r : Redis.t) (ip : string)
    (t0 : Z) (ts : list Z) :
  1 ≤ requests_per_minute self →
  available r = true →
  find t0 r (redis_key ip) = None →
  Forall (λ t, t ≤ t0 + 60) ts →
  ∃ os r',
    serve self ip (t0 :: ts) r = (os, r')
    ∧ length os = S (length ts)
    ∧ (∀ (i : nat) o, os !! i = Some o →
         o = if Z.of_nat i <? requests_per_minute self then Return () else rejection)
    ∧ (∀ t, t ≤ t0 + 60 →
         counter r' t ip
         = Some (Z.min (Z.of_nat (S (length ts))) (requests_per_minute self)))
    ∧ (∀ t, t0 + 60 < t →
         ∃ r'', __call__ self r' t ip = (Return (), r'') ∧ counter r'' t ip = Some 1).
Proof.
  intros Hc Hav Hfind Hts.
  destruct (serve_window self ip (t0 + 60) ts
              (put r (redis_key ip) (Entry (VInt 1) (Some (t0 + 60)))) 1)
    as (os & r' & Hserve & Hlen & Hos & Hav' & Hdb'); [done| |done..|].
  { simpl. by rewrite lookup_insert_eq. }
  exists (Return () :: os), r'. cbn [serve]. rewrite call_first, Hserve by done.
  split; [done|]. split; [by rewrite <- Hlen|]. split; [|split].
  - intros [|i] o Ho; simpl in Ho; simplify_eq.
    + rewrite (proj2 (Z.ltb_lt _ _)); [done|lia].
    + rewrite (Hos i o Ho). by replace (1 + Z.of_nat i) with (Z.of_nat (S i)) by lia.
  - intros t Ht. unfold counter, find, live. rewrite Hdb'. simpl.
    rewrite bool_decide_eq_true_2 by done. do 2 f_equal. lia.
  - intros t Ht.
    assert (find t r' (redis_key ip) = None) as Hgone.
    { unfold find, live. rewrite Hdb'. simpl. by rewrite bool_decide_eq_false_2 by lia. }
    eexists. split; [by apply call_first|].
    unfold counter. rewrite find_put_eq. unfold live; simpl.
    by rewrite bool_decide_eq_true_2 by lia.
Qed.

(** *** What the limiter leaves alone *)

Lemma redis_key_inj (ip ip' : string) : redis_key ip = redis_key ip' → ip = ip'.
Proof. unfold redis_key. intros H. cbv in H. by simplify_eq. Qed.

Lemma redis_key_not_results (ip tid : string) : redis_key ip ≠ "crawl_results:" +:+ tid.
Proof. unfold redis_key. intros H. cbv in H. discriminate. Qed.

Lemma call_frame (self : RateLimiter) (r : Redis.t) (now : Z) (ip k : string) :
  k ≠ redis_key ip →
  db (__call__ self r now ip).2 !! k = db r !! k.
Proof.
  intros Hk. unfold __call__, get, setex, incr.
  destruct (available r); [|done].
  destruct (find now r (redis_key ip)) as [[[n|l] ex]|]; simpl; [|done|].
  - destruct (requests_per_minute self <=? n); simpl; [done|]. by rewrite lookup_insert_ne.
  - by rewrite lookup_insert_ne.
Qed.

Lemma call_available (self : RateLimiter) (r : Redis.t) (now : Z) (ip : string) :
  available (__call__ self r now ip).2 = available r.
Proof.
  unfold __call__, get, setex, incr.
  destruct (available r) eqn:Hav; [|done].
  destruct (find now r (redis_key ip)) as [[[n|l] ex]|]; simpl; [|done|done].
  by destruct (requests_per_minute self <=? n).
Qed.

(** X14.  A request of one client touches nothing in the cache but that
    client's own counter: the counters of all other clients and the stored
    results of every task read the same before and after; and a request that
    is refused (over the ceiling, or because the cache is down) changes
    nothing at all, so it neither counts nor prolongs the window. *)
Theorem limiter_touches_only_own_counter (self : RateLimiter) (r : Redis.t) (now : Z)
    (ip : string) :
  let r' := (__call__ self r now ip).2 in
  available r' = available r
  ∧ (∀ k, k ≠ redis_key ip → db r' !! k = db r !! k)
  ∧ (∀ ip' t, ip' ≠ ip → counter r' t ip' = counter r t ip')
  ∧ (∀ tid t, list_at t r' ("crawl_results:" +:+ tid) = list_at t r ("crawl_results:" +:+ tid))
  ∧ (raised (__call__ self r now ip).1 = true → r' = r).
Proof.
  simpl. split; [apply call_available|]. split; [intros k Hk; by apply call_frame|].
  split; [|split].
  - intros ip' t Hip. unfold counter, find.
    rewrite call_frame; [done|]. intros Heq. by apply redis_key_inj in Heq.
  - intros tid t. unfold list_at, find.
    rewrite call_frame; [done|]. intros Heq. symmetry in Heq. by apply redis_key_not_results in Heq.
  - unfold __call__, get, setex, incr.
    destruct (available r); [|done].
    destruct (find now r (redis_key ip)) as [[[n|l] ex]|]; simpl; [|done|done].
    by destruct (requests_per_minute self <=? n).
Qed.

(** *** The edge of a window *)

Lemma serve_app (self : RateLimiter) (ip : string) (ts1 ts2 : list Z) (r : Redis.t) :
  serve self ip (ts1 ++ ts2) r
  = ((serve self ip ts1 r).1 ++ (serve self ip ts2 (serve self ip ts1 r).2).1,
     (serve self ip ts2 (serve self ip ts1 r).2).2).
Proof.
  revert r. induction ts1 as [|t ts1 IH]; intros r; simpl.
  { by destruct (serve self ip ts2 r). }
  destruct (__call__ self r t ip) as [o r1]. rewrite IH.
  destruct (serve self ip ts1 r1) as [os1 r2]. simpl.
  by destruct (serve self ip ts2 r2).
Qed.

(** Requests in an open window whose counter stays below the ceiling are
    all admitted. *)
Lemma serve_window_admits (self : RateLimiter) (ip : string) (d t : Z) (n : nat)
    (r : Redis.t) (m : Z) :
  available r = true →
  db r !! redis_key ip = Some (Entry (VInt m) (Some d)) →
  t ≤ d →
  m + Z.of_nat n ≤ requests_per_minute self →
  (serve self ip (replicate n t) r).1 = replicate n (Return ())
  ∧ available (serve self ip (replicate n t) r).2 = true
  ∧ db (serve self ip (replicate n t) r).2 !! redis_key ip
    = Some (Entry (VInt (m + Z.of_nat n)) (Some d)).
Proof.
  intros Hav Hdb Ht Hm.
  destruct (serve_window self ip d (replicate n t) r m) as (os & r' & Hserve & Hlen & Hos & Hav' & Hdb');
    [done|done|by apply Forall_replicate|lia|].
  rewrite Hserve. simpl. rewrite length_replicate in Hlen, Hdb'. split; [|split; [done|]].
  - symmetry. apply replicate_as_Forall. split; [done|].
    apply Forall_lookup. intros i o Ho. rewrite (Hos i o Ho).
    apply lookup_lt_Some in Ho. rewrite (proj2 (Z.ltb_lt _ _)); [done|lia].
  - rewrite Hdb'. do 3 f_equal. lia.
Qed.

(** X15.  A fixed window lets a burst through at its edge.  With ceiling
    c at least 1, a client whose first request opened a window at [t0] can
    place c-1 more requests at any moment [t1] of that window and c further
    ones at any moment [t2] after second t0+60, however soon after it: all
    2c are admitted, although all but the first arrive within the t2-t1
    seconds around the edge. *)
Theorem window_edge_burst (self : RateLimiter) (r : Redis.t) (ip : string) (t0 t1 t2 : Z) :
  1 ≤ requests_per_minute self →
  available r = true →
  find t0 r (redis_key ip) = None →
  t1 ≤ t0 + 60 →
  t0 + 60 < t2 →
  let n := Z.to_nat (requests_per_minute self - 1) in
  (serve self ip (t0 :: replicate n t1 ++ t2 :: replicate n t2) r).1
  = replicate (S n + S n) (Return ()).
Proof.
  intros Hc Hav Hfind Ht1 Ht2 n.
  cbn [serve]. rewrite call_first by done.
  set (r1 := put r (redis_key ip) (Entry (VInt 1) (Some (t0 + 60)))).
  destruct (serve_window_admits self ip (t0 + 60) t1 n r1 1) as (Hos1 & Hav2 & Hdb2);
    [done|by (simpl; rewrite lookup_insert_eq)|done|lia|].
  rewrite serve_app. rewrite Hos1.
  set (r2 := (serve self ip (replicate n t1) r1).2) in *.
  cbn [serve].
  assert (find t2 r2 (redis_key ip) = None) as Hgone.
  { unfold find, live. rewrite Hdb2. simpl. by rewrite bool_decide_eq_false_2 by lia. }
  rewrite call_first by done.
  set (r3 := put r2 (redis_key ip) (Entry (VInt 1) (Some (t2 + 60)))).
  destruct (serve_window_admits self ip (t2 + 60) t2 n r3 1) as (Hos3 & _ & _);
    [done|by (simpl; rewrite lookup_insert_eq)|lia|lia|].
  destruct (serve self ip (replicate n t2) r3) as [os3 r4]. simpl in Hos3. subst os3.
  simpl. f_equal. change (Return () :: replicate n (Return ())) with (@replicate (outcome unit) (S n) (Return ())).
  by rewrite <- replicate_add.
Qed.

(** Requests in an open window whose counter has reached the ceiling are
    all rejected and change nothing. *)
Lemma serve_window_full (self : RateLimiter) (ip : string) (d m : Z) (ts : list Z)
    (r : Redis.t) :
  available r = true →
  db r !! redis_key ip = Some (Entry (VInt m) (Some d)) →
  Forall (λ t, t ≤ d) ts →
  requests_per_minute self ≤ m →
  serve self ip ts r = (replicate (length ts) rejection, r).
Proof.
  intros Hav Hdb Hts Hm. induction Hts as [|t ts Ht _ IH]; [done|].
  cbn [serve]. rewrite (call_counted self r t ip m d) by done.
  rewrite (proj2 (Z.leb_le _ _)) by done. by rewrite IH.
Qed.

(** X24.  A ceiling below 1 is served like the ceiling 1: the request that
    opens a window is admitted without being compared with the ceiling, and
    every other request of that window is rejected and leaves the counter
    at 1. *)
Theorem ceiling_below_one (self : RateLimiter) (r : Redis.t) (ip : string)
    (t0 : Z) (ts : list Z) :
  requests_per_minute self ≤ 1 →
  available r = true →
  find t0 r (redis_key ip) = None →
  Forall (λ t, t < t0 + 60) ts →
  (serve self ip (t0 :: ts) r).1 = Return () :: replicate (length ts) rejection
  ∧ ∀ t, t < t0 + 60 → counter (serve self ip (t0 :: ts) r).2 t ip = Some 1.
Proof.
  intros Hc Hav Hfind Hts. cbn [serve]. rewrite call_first by done.
  rewrite (serve_window_full self ip (t0 + 60) 1 ts); [|done| | |done].
  2:{ simpl. by rewrite lookup_insert_eq. }
  2:{ eapply Forall_impl; [exact Hts|]. intros t Ht. simpl in Ht. lia. }
  simpl. split; [done|]. intros t Ht. unfold counter. rewrite find_put_eq.
  unfold live. simpl. by rewrite bool_decide_eq_true_2 by lia.
Qed.

End RateLimiterProperties.


(** * Properties of the validation and duplicates stages *)

Section ItemPipelineProperties.

Import ItemPipelines.

(** X16.  [ValidationPipeline] accepts exactly the items whose "url" is a
    string that starts with http:// or https://, and returns them as they
    came; an item without "url", or with a falsy one, is dropped. *)
Theorem validation_accepts_http_urls (it : item) :
  (ValidationPipeline.process_item it = Return it
   ↔ ∃ url, it !! "url" = Some (PyStr url)
            ∧ (String.prefix "http://" url = true ∨ String.prefix "https://" url = true))
  ∧ (∀ it', ValidationPipeline.process_item it = Return it' → it' = it)
  ∧ (it !! "url" = None ∨ (∃ v, it !! "url" = Some v ∧ py_bool v = false) →
     ValidationPipeline.process_item it = Raise (DropItem ("缺少必需字段: " +:+ "url"))).
Proof.
  unfold ValidationPipeline.process_item, ValidationPipeline.required_fields,
    ValidationPipeline.check_required, get, startswith.
  destruct (it !! "url") as [[|url|str truth]|] eqn:Hurl; simpl.
  - split; [|split]; [|done..]. split; [done|]. by intros (url & ? & _).
  - destruct (bool_decide (url = "")) eqn:Hempty; simpl.
    + apply bool_decide_eq_true in Hempty. subst. split; [|split]; [|done..].
      split; [done|]. intros (url & [= <-] & [H|H]); done.
    + rewrite orb_false_r.
      destruct (String.prefix "http://" url) eqn:H1; simpl.
      * split; [|split].
        -- split; [|done]. intros _. exists url. split; [done|by left].
        -- by intros it' [= <-].
        -- intros [|(v & [= <-] & Hv)]; [done|]. simpl in Hv. by rewrite Hempty in Hv.
      * destruct (String.prefix "https://" url) eqn:H2; simpl.
        -- split; [|split].
           ++ split; [|done]. intros _. exists url. split; [done|by right].
           ++ by intros it' [= <-].
           ++ intros [|(v & [= <-] & Hv)]; [done|]. simpl in Hv. by rewrite Hempty in Hv.
        -- split; [|split].
           ++ split; [done|]. intros (url' & [= <-] & [H|H]); congruence.
           ++ done.
           ++ intros [|(v & [= <-] & Hv)]; [done|]. simpl in Hv. by rewrite Hempty in Hv.
  - destruct truth; simpl.
    + split; [|split].
      * split; [done|]. by intros (url & ? & _).
      * done.
      * intros [|(v & [= <-] & Hv)]; done.
    + split; [|split]; [|done..]. split; [done|]. by intros (url & ? & _).
  - split; [|split]; [|done..]. split; [done|]. by intros (url & ? & _).
Qed.

Section Duplicates.

Context (sha256_hexdigest : string → string).

Import DuplicatesPipeline.

Abbreviation fingerprint := (_generate_fingerprint sha256_hexdigest).

Lemma process_items_length (items : list item) (self : DuplicatesPipeline) :
  length (process_items sha256_hexdigest self items).1 = length items.
Proof.
  revert self. induction items as [|it items IH]; intros self; simpl; [done|].
  destruct (process_item sha256_hexdigest self it) as [o self1].
  specialize (IH self1). destruct (process_items sha256_hexdigest self1 items) as [os self2].
  simpl in *. by rewrite IH.
Qed.

Lemma process_items_cons (self : DuplicatesPipeline) (x : item) (items : list item) :
  process_items sha256_hexdigest self (x :: items)
  = if bool_decide (fingerprint x ∈ seen_items self) then
      (Raise (DropItem ("重复项目: " +:+ py_str (get x "url" PyNone)))
         :: (process_items sha256_hexdigest self items).1,
       (process_items sha256_hexdigest self items).2)
    else
      (Return x
         :: (process_items sha256_hexdigest
               {| seen_items := {[fingerprint x]} ∪ seen_items self |} items).1,
       (process_items sha256_hexdigest
          {| seen_items := {[fingerprint x]} ∪ seen_items self |} items).2).
Proof.
  cbn [process_items]. unfold process_item.
  case_bool_decide; by destruct (process_items sha256_hexdigest _ items).
Qed.

(** X17.  [DuplicatesPipeline] lets an item pass exactly when no earlier
    item of the crawl, and nothing seen before, has its fingerprint; the
    item passes unchanged, and afterwards the fingerprints of all the items,
    passed or dropped, are in [seen_items]. *)
Theorem duplicates_pass_first_occurrence (items : list item) :
  ∀ (self : DuplicatesPipeline),
    let os := (process_items sha256_hexdigest self items).1 in
    let self' := (process_items sha256_hexdigest self items).2 in
    length os = length items
    ∧ seen_items self' = seen_items self ∪ list_to_set (fingerprint <$> items)
    ∧ (∀ (i : nat) it, items !! i = Some it →
         (os !! i = Some (Return it)
          ↔ fingerprint it ∉ seen_items self
            ∧ ∀ (j : nat) it', (j < i)%nat → items !! j = Some it' →
                               fingerprint it' ≠ fingerprint it))
    ∧ (∀ (i : nat) it', os !! i = Some (Return it') → items !! i = Some it').
Proof.
  induction items as [|x items IH]; intros self.
  { simpl. repeat split; try done. set_solver. }
  pose proof (process_items_length (x :: items) self) as Hlen.
  destruct (IH self) as (_ & Hseen0 & Hchar0 & Hret0).
  destruct (IH {| seen_items := {[fingerprint x]} ∪ seen_items self |})
    as (_ & Hseen1 & Hchar1 & Hret1).
  clear IH. cbn zeta in *. rewrite process_items_cons in *.
  case_bool_decide as Hx; cbn [fst snd] in *.
  - split; [done|]. split; [set_solver|]. split.
    + intros [|i] it Hit; simpl in *.
      * simplify_eq. split; [done|]. by intros [? _].
      * rewrite (Hchar0 i it Hit). split.
        -- intros [Hnot Hearlier]. split; [done|].
           intros [|j] it' Hj Hit'; simpl in Hit'.
           ++ simplify_eq. intros Heq. rewrite Heq in Hx. done.
           ++ apply (Hearlier j); [lia|done].
        -- intros [Hnot Hearlier]. split; [done|].
           intros j it' Hj Hit'. apply (Hearlier (S j)); [lia|done].
    + intros [|i] it'; simpl; [done|]. apply Hret0.
  - split; [done|]. split; [set_solver|]. split.
    + intros [|i] it Hit; simpl in *.
      * simplify_eq. split; [|done]. intros _. split; [done|]. intros j it' Hj. lia.
      * rewrite (Hchar1 i it Hit). split.
        -- intros [Hnot Hearlier]. split; [set_solver|].
           intros [|j] it' Hj Hit'; simpl in Hit'.
           ++ simplify_eq. set_solver.
           ++ apply (Hearlier j); [lia|done].
        -- intros [Hnot Hearlier]. split.
           ++ assert (fingerprint x ≠ fingerprint it) by (apply (Hearlier 0%nat); [lia|done]).
              set_solver.
           ++ intros j it' Hj Hit'. apply (Hearlier (S j)); [lia|done].
    + intros [|i] it'; simpl; [by intros [= <-]|]. apply Hret1.
Qed.

(** X18.  Items are told apart by "url" and "title" alone: once an item has
    passed, any item with the same two fields is dropped as a duplicate,
    whatever its other fields are, and leaves [seen_items] as it is. *)
Theorem duplicates_compare_url_and_title (self : DuplicatesPipeline) (it it' : item) :
  it !! "url" = it' !! "url" →
  it !! "title" = it' !! "title" →
  let self1 := (process_item sha256_hexdigest self it).2 in
  (process_item sha256_hexdigest self1 it').1
  = Raise (DropItem ("重复项目: " +:+ py_str (get it' "url" PyNone)))
  ∧ (process_item sha256_hexdigest self1 it').2 = self1.
Proof.
  intros Hurl Htitle self1.
  assert (fingerprint it' = fingerprint it) as Hfp.
  { unfold _generate_fingerprint, content, get. by rewrite Hurl, Htitle. }
  assert (fingerprint it ∈ seen_items self1) as Hin.
  { unfold self1, process_item. case_bool_decide; simpl; [done|set_solver]. }
  assert (process_item sha256_hexdigest self1 it'
          = (Raise (DropItem ("重复项目: " +:+ py_str (get it' "url" PyNone))), self1)) as ->; [|done].
  unfold process_item. rewrite Hfp. by rewrite bool_decide_eq_true_2.
Qed.

End Duplicates.

End ItemPipelineProperties.


(** * Properties of the whole item pipeline *)

Section ChainProperties.

Context {time : Type}.
Context (sha256_hexdigest : string → string).
Context (json_dumps : ItemPipelines.item → option string).

Import ItemPipelines.

Abbreviation chain := (@ItemPipelines.chain time).





End ChainProperties.
(** * Properties of the spider's item counter *)

Section BaseSpiderProperties.

Import BaseSpider.

Local Open Scope Z_scope.

Lemma items_scraped_times_spec (n : nat) :
  ∀ (self : BaseSpider),
    0 ≤ items_scraped self →
    let self' := items_scraped_times n self in
    items_scraped self' = items_scraped self + Z.of_nat n
    ∧ max_items self' = max_items self
    ∧ Z.of_nat (close_requests self')
      = Z.of_nat (close_requests self)
        + Z.max 0 (items_scraped self + Z.of_nat n + 1
                   - Z.max (max_items self) (items_scraped self + 1)).
Proof.
  induction n as [|n IH]; intros self Hpos.
  { simpl. repeat split; lia. }
  cbn [items_scraped_times]. cbn zeta.
  destruct (IH (item_scraped self)) as (H1 & H2 & H3).
  { unfold item_scraped. simpl. destruct (_ <=? _); simpl; lia. }
  rewrite H1, H2, H3. clear IH H1 H2 H3.
  unfold item_scraped; simpl.
  destruct (Z.leb_spec (max_items self) (items_scraped self + 1)); simpl;
    repeat split; lia.
Qed.

(** X19.  A spider asks the engine to close when the item that makes
    [items_scraped] reach [max_items] is scraped, not before, and again at
    every item after that one: after n items of a new spider,
    [items_scraped] is n and the number of close requests is the number of
    items from the [max_items]-th on. *)
Theorem item_scraped_close_requests (max_items_kwarg : option Z) (n : nat) :
  let self := items_scraped_times n (__init__ max_items_kwarg) in
  let M := match max_items_kwarg with Some m => m | None => 1000 end in
  items_scraped self = Z.of_nat n
  ∧ Z.of_nat (close_requests self) = Z.max 0 (Z.of_nat n + 1 - Z.max M 1)
  ∧ (Z.of_nat n < M → close_requests self = 0%nat)
  ∧ (1 ≤ M ≤ Z.of_nat n → Z.of_nat (close_requests self) = Z.of_nat n - M + 1).
Proof.
  destruct (items_scraped_times_spec n (__init__ max_items_kwarg)) as (H1 & H2 & H3);
    [simpl; lia|].
  simpl in *. repeat split; lia.
Qed.

End BaseSpiderProperties.

(** * Properties of the resource manager *)

Section ResourceProperties.

Context {redis_pool db_pool http_session : Type}.

Import Resources.

Abbreviation manager := (@AsyncResourceManager redis_pool db_pool http_session).


End ResourceProperties.

(** * Properties of the metrics and of the keys in the cache *)

Section MetricsProperties.

Context {pydict time : Type}.
Context (json_dumps : pydict → option string).
Context (has_key : pydict → string → bool).

Import SpiderRunner.

#[local] Existing Instance SpiderStatus_eq_dec.

Abbreviation task := (@SpiderRunner.task pydict time).
Abbreviation AsyncSpiderRunner := (@SpiderRunner.AsyncSpiderRunner pydict time).
Abbreviation world := (@SpiderRunner.world pydict time).

Lemma count_partition (l : list task) :
  Forall (λ t, status t ≠ PENDING) l →
  length l
  = (length (filter (λ t, status t = RUNNING) l)
     + length (filter (λ t, status t = COMPLETED) l)
     + length (filter (λ t, status t = FAILED) l)
     + length (filter (λ t, status t = STOPPING) l)
     + length (filter (λ t, status t = STOPPED) l))%nat.
Proof.
  induction 1 as [|t l Ht _ IH]; [done|].
  rewrite !filter_cons. simpl length at 1. rewrite IH.
  destruct (status t); repeat case_decide; try done; simpl; lia.
Qed.

Lemma count_status_le_size (st : SpiderStatus) (m : gmap string task) :
  (Monitoring.count_status st m ≤ size m)%nat.
Proof.
  unfold Monitoring.count_status.
  rewrite <- (length_map_to_list m), <- (length_fmap snd (map_to_list m)).
  apply length_filter.
Qed.

Lemma run_size_le (evs : list (@event pydict time)) (w : world) :
  (size (active_tasks (runner w))
   ≤ size (active_tasks (runner (run json_dumps has_key evs w))))%nat.
Proof.
  rewrite <- !size_dom. apply subseteq_size. intros k Hk.
  apply elem_of_dom. apply elem_of_dom in Hk. by apply run_keeps_task.
Qed.

(** X21.  The task counts of [get_metrics].  [running_tasks] is counted
    before [await redis.info()], the other numbers on the registry as it is
    afterwards, and tasks that are stopping or stopped are reported in no
    category of their own.  For a registry reached from the empty one and
    whatever happens to it during the await: [active_tasks] is the sum of
    the completed and failed counts and of the tasks that are running,
    stopping or stopped when the await is over; each reported count is at
    most [active_tasks]; and when nothing happens during the await,
    [active_tasks] is the sum of the three reported counts and of the
    stopping and stopped tasks. *)
Theorem metrics_omit_stopped_tasks (r : Redis.t) (evs evs' : list (@event pydict time)) :
  let w := run json_dumps has_key evs (World init r) in
  let s := runner w in
  let s' := runner (run json_dumps has_key evs' w) in
  let m := Monitoring.application_metrics s s' in
  Monitoring.active_tasks m
  = (Monitoring.completed_tasks m + Monitoring.failed_tasks m
     + Monitoring.count_status RUNNING (get_all_tasks s')
     + Monitoring.count_status STOPPING (get_all_tasks s')
     + Monitoring.count_status STOPPED (get_all_tasks s'))%nat
  ∧ (Monitoring.running_tasks m ≤ Monitoring.active_tasks m)%nat
  ∧ (Monitoring.completed_tasks m + Monitoring.failed_tasks m ≤ Monitoring.active_tasks m)%nat
  ∧ (evs' = [] →
     Monitoring.active_tasks m
     = (Monitoring.running_tasks m + Monitoring.completed_tasks m + Monitoring.failed_tasks m
        + Monitoring.count_status STOPPING (get_all_tasks s)
        + Monitoring.count_status STOPPED (get_all_tasks s))%nat).
Proof.
  intros w s s' m.
  assert (Monitoring.active_tasks m
          = (Monitoring.completed_tasks m + Monitoring.failed_tasks m
             + Monitoring.count_status RUNNING (get_all_tasks s')
             + Monitoring.count_status STOPPING (get_all_tasks s')
             + Monitoring.count_status STOPPED (get_all_tasks s'))%nat) as Hsum.
  { simpl. unfold Monitoring.count_status, get_all_tasks.
    set (tasks := active_tasks s').
    assert (size tasks = length (map_to_list tasks).*2) as Hsize.
    { by rewrite length_fmap, length_map_to_list. }
    assert (Forall (λ t : task, status t ≠ PENDING) (map_to_list tasks).*2) as Hall.
    { apply Forall_fmap, Forall_forall. intros [k t] Hin. simpl.
      apply elem_of_map_to_list in Hin. unfold tasks, s', w in Hin.
      rewrite <- run_app in Hin.
      eapply (record_sound_run json_dumps has_key (evs ++ evs') (World init r));
        [apply registry_inv_init| |exact Hin].
      intros k0 t0 Hk. simpl in Hk. by rewrite lookup_empty in Hk. }
    rewrite Hsize, (count_partition _ Hall). lia. }
  split; [exact Hsum|]. split; [|split].
  - simpl. etrans; [apply count_status_le_size|]. apply run_size_le.
  - lia.
  - intros ->. rewrite Hsum. simpl. unfold s', s. simpl. lia.
Qed.

Import Redis.

Lemma apply_all_frame (now : Z) (cs : list command) (r : Redis.t) (k : string) :
  Forall (λ c, command_key c ≠ k) cs →
  db (apply_all now cs r).2 !! k = db r !! k
  ∧ available (apply_all now cs r).2 = available r.
Proof.
  revert r. induction cs as [|c cs IH]; intros r Hcs; simpl; [done|].
  inversion Hcs as [|? ? Hc Hcs']; subst.
  assert (db (apply now c r).2 !! k = db r !! k
          ∧ available (apply now c r).2 = available r) as [Hdb Hav].
  { destruct c as [k0 v|k0 secs]; simpl in *.
    - destruct (find now r k0) as [[[n|l] ex]|]; simpl; rewrite ?lookup_insert_ne; done.
    - destruct (find now r k0) as [[v ex]|]; simpl; rewrite ?lookup_insert_ne; done. }
  destruct (apply now c r) as [e r1]. simpl in *.
  destruct (IH r1 Hcs') as [Hdb' Hav'].
  destruct (apply_all now cs r1) as [e' r2]. simpl in *. split; congruence.
Qed.

(** X22.  Storing results for one task touches no other key of the cache:
    the stored results of every other task and the rate-limit counter of
    every client read the same before and after [store_crawl_results], and
    the cache does not change its availability. *)
Theorem store_touches_only_own_key (s : AsyncSpiderRunner) (r : Redis.t) (rnow : Z)
    (tid : string) (batch : list pydict) :
  let r' := stored_redis (store_crawl_results json_dumps s r rnow tid batch) in
  available r' = available r
  ∧ (∀ k, k ≠ "crawl_results:" +:+ tid → db r' !! k = db r !! k)
  ∧ (∀ tid' t, tid' ≠ tid →
       list_at t r' ("crawl_results:" +:+ tid') = list_at t r ("crawl_results:" +:+ tid'))
  ∧ (∀ ip t, Dependencies.counter r' t ip = Dependencies.counter r t ip).
Proof.
  assert (available (stored_redis (store_crawl_results json_dumps s r rnow tid batch)) = available r
          ∧ ∀ k, k ≠ "crawl_results:" +:+ tid →
                 db (stored_redis (store_crawl_results json_dumps s r rnow tid batch)) !! k
                 = db r !! k) as [Hav Hframe].
  { unfold store_crawl_results. destruct (mapM json_dumps batch) as [payloads|]; [|done].
    unfold execute. destruct (available r) eqn:Hav; [|done].
    assert (∀ k, k ≠ "crawl_results:" +:+ tid →
              Forall (λ c, command_key c ≠ k)
                ((RPUSH ("crawl_results:" +:+ tid) <$> payloads)
                 ++ [EXPIRE ("crawl_results:" +:+ tid) 3600])) as Hcs.
    { intros k Hk. apply Forall_app. split.
      - apply Forall_fmap, Forall_forall. intros v _. simpl. congruence.
      - repeat constructor. simpl. congruence. }
    destruct (apply_all rnow _ r) as [e r1] eqn:Happ.
    assert (available r1 = true ∧ ∀ k, k ≠ "crawl_results:" +:+ tid → db r1 !! k = db r !! k)
      as [Hav1 Hdb1].
    { split.
      - pose proof (apply_all_frame rnow _ r "" (Hcs "" ltac:(by intros H; cbv in H))) as [_ H].
        rewrite Happ in H. simpl in H. congruence.
      - intros k Hk. pose proof (apply_all_frame rnow _ r k (Hcs k Hk)) as [H _].
        by rewrite Happ in H. }
    destruct e; simpl; [done|]. by destruct (active_tasks s !! tid). }
  simpl. split; [done|]. split; [done|]. split.
  - intros tid' t Hne. unfold list_at, find. rewrite Hframe; [done|].
    intros Heq. cbv in Heq. by simplify_eq.
  - intros ip t. unfold Dependencies.counter, find. rewrite Hframe; [done|].
    unfold Dependencies.redis_key. intros Heq. cbv in Heq. discriminate.
Qed.

End MetricsProperties.
(** * Scenarios, checked *)

Section Scenarios.

Import SpiderRunner Scenario.

Local Open Scope Z_scope.

Example scenario_A_completes :
  status_of (run dumps has_key (launch_A ++ complete_A) world0) "A" = Some COMPLETED.
Proof. vm_compute. reflexivity. Qed.

(** An update created by a callback that fired while task R was still
    RUNNING runs after a stop that found no crawler: the record, STOPPED
    when [stop_task] returned, is COMPLETED afterwards. *)
Example update_created_before_stop :
  let evs := [run_spider_ev "R" "s1" "{}" 0; loop_step_ev (Return ()) 1;
              spider_success_ev None "R"; stop_task_ev [] "R" 2] in
  status_of (run dumps has_key evs world0) "R" = Some STOPPED
  ∧ status_of (run dumps has_key (evs ++ [loop_step_ev (Return ()) 3]) world0) "R" = Some COMPLETED.
Proof. split; vm_compute; reflexivity. Qed.

(** Stopping an unknown task, or one that has completed, is answered 404. *)
Example stop_not_stoppable :
  let w := run dumps has_key (launch_A ++ complete_A) world0 in
  (stop_task (runner w) [] "nope" 10).1 = Finished false
  ∧ (stop_task (runner w) [crawler_of "A"] "A" 10).1 = Finished false
  ∧ Endpoints.stop_task false "A" = Raise (HTTPException 404 "任务不存在或无法停止")
  ∧ raised (Endpoints.get_task_status (runner w) "nope") = true.
Proof. repeat split; vm_compute; reflexivity. Qed.

Example scenario_B_stopped :
  status_of (run dumps has_key stop_B world0) "B" = Some STOPPING
  ∧ status_of (run dumps has_key (stop_B ++ race_B) world0) "B" = Some STOPPED.
Proof. split; vm_compute; reflexivity. Qed.

(** The guard at the race of task B: the callback that fires while B is
    STOPPING is ignored and B ends STOPPED. *)
Lemma stop_request_wins_witness :
  let w' := run dumps has_key race_B (run dumps has_key stop_B world0) in
  (∀ result, _on_spider_success (runner w') result "B" = runner w')
  ∧ (∀ failure, _on_spider_error (runner w') failure "B" = runner w')
  ∧ (∃ st, status_of w' "B" = Some st
           ∧ stop_requested st = true ∧ st ≠ COMPLETED ∧ st ≠ FAILED
           ∧ (terminal st = true → st = STOPPED))
  ∧ (∀ teardown now,
       "B" ∈ suspended_stops (runner w') →
       status_of (step dumps has_key (stop_resume_ev "B" teardown now) w') "B" = Some STOPPED).
Proof.
  apply (stop_request_wins dumps has_key (run dumps has_key stop_B world0) "B"
           (Task "s1" STOPPING "{}" 0 [] None None None) race_B).
  - vm_compute. reflexivity.
  - reflexivity.
  - intros co Hin. vm_compute in Hin. by apply elem_of_nil in Hin.
  - repeat constructor.
Defined.

(** C1 (once a stop has been requested, the status never becomes
    COMPLETED or FAILED afterwards, and the task ends STOPPED) evaluated at
    two races.  The completion callback of task R fired while R was RUNNING
    and created its update; [stop_task] then finds no crawler, returns true
    and leaves R STOPPED; when the update runs, R is COMPLETED.  Task L is
    stopped before the event loop has run its launch; [stop_task] returns
    true and leaves L STOPPED; the crawl then cannot be started and L is
    FAILED. *)
Theorem stop_request_overridden :
  let w := run dumps has_key complete_R world0 in
  let l := step dumps has_key (run_spider_ev "L" "s1" "{}" 0) world0 in
  let not_found := Raise (Exception "Spider not found: s1") in
  status_of w "R" = Some RUNNING
  ∧ (stop_task (runner w) [] "R" 2).1 = Finished true
  ∧ status_of (step dumps has_key (stop_task_ev [] "R" 2) w) "R" = Some STOPPED
  ∧ status_of (run dumps has_key [stop_task_ev [] "R" 2; loop_step_ev (Return ()) 3] w) "R"
    = Some COMPLETED
  ∧ (stop_task (runner l) [] "L" 1).1 = Finished true
  ∧ status_of (step dumps has_key (stop_task_ev [] "L" 1) l) "L" = Some STOPPED
  ∧ status_of (run dumps has_key [stop_task_ev [] "L" 1; loop_step_ev not_found 2] l) "L"
    = Some FAILED.
Proof. repeat split; vm_compute; reflexivity. Qed.

(** C9 ([stop_task] on a RUNNING task returns true) evaluated at task B,
    RUNNING with a live crawler, so that the Deferred of [crawler.stop()]
    has not fired when it is awaited: the status becomes STOPPING,
    [await d] raises RuntimeError, the [finally] block makes the task
    STOPPED, and the call ends in that error instead of returning true. *)
Theorem stop_task_live_crawler_raises :
  let s := runner (run dumps has_key launch_B world0) in
  let s1 := (stop_task s [crawler_of "B"] "B" 2).2 in
  let res := stop_task_resume s1 "B" (await_deferred unfired) 3 in
  status <$> get_task_status s "B" = Some RUNNING
  ∧ (stop_task s [crawler_of "B"] "B" 2).1 = AwaitingStop (crawler_of "B")
  ∧ status <$> get_task_status s1 "B" = Some STOPPING
  ∧ res.1 = Raise bad_yield_error
  ∧ res.1 ≠ Return true
  ∧ status <$> get_task_status res.2 "B" = Some STOPPED.
Proof. repeat split; vm_compute; try reflexivity; discriminate. Qed.



Lemma end_time_set_iff_terminal_witness :
  let t := Task "s1" COMPLETED "{}" 0 ([] : list string) (Some 9) None None in
  (is_Some (end_time t) ↔ terminal (status t) = true)
  ∧ (status t = PENDING ∨ status t = RUNNING ∨ status t = STOPPING → end_time t = None).
Proof.
  apply (end_time_set_iff_terminal dumps has_key (Redis.Server true ∅) (launch_A ++ complete_A) "A").
  vm_compute. reflexivity.
Defined.

(** C4 ([items_count] is the number of records ingested for the task so
    far) evaluated at five scraped items: the pipeline stores them one call
    each, the cache holds all five and a read returns them with total 5 and
    no more, but [items_count] is 1, the size of the last batch. *)
Theorem items_count_after_five_items :
  let p := (Pipelines.process_items dumps (Pipelines.Pipeline 0) five_items
              {| Pipelines.stats := Some ∅; Pipelines.task_id := Some "A" |}
              (runner (run dumps has_key launch_A world0)) (redis world0) 10).2 in
  items_count <$> get_task_status (Pipelines.processed_runner p) "A" = Some (Some 1%nat)
  ∧ Pipelines.stored_count (Pipelines.pipeline p) = 5%nat
  ∧ Redis.llen 10 (Pipelines.processed_redis p) "crawl_results:A" = Return 5
  ∧ Endpoints.get_crawl_results loads (Pipelines.processed_redis p) 10
      (Pipelines.processed_redis p) 10 "A" 0 100
    = Return {| Endpoints.task_id := "A"; Endpoints.items := five_items;
                Endpoints.page := {| Endpoints.start := 0; Endpoints.limit := 100;
                                     Endpoints.total := 5; Endpoints.has_more := false |} |}.
Proof. repeat split; vm_compute; reflexivity. Qed.

(** C5 does not hold for the append: with the cache down the call returns
    normally and nothing is stored. *)
Lemma append_swallows_cache_error :
  let res := store_crawl_results dumps (runner (run dumps has_key launch_A world0)) cache_down 10
               "A" five_items in
  returned res = Return ()
  ∧ raised (returned res) = false
  ∧ stored_redis res = cache_down
  ∧ Redis.db (stored_redis res) = ∅.
Proof. repeat split; vm_compute; reflexivity. Qed.

Lemma cache_unavailable_behaviour_witness :
  let s := runner (run dumps has_key launch_A world0) in
  (Endpoints.valid_query 0 100 = true →
   (∀ r' now',
      Endpoints.get_crawl_results loads cache_down 10 r' now' "A" 0 100
      = Raise (HTTPException 500 ("获取结果失败: " +:+ exn_str Redis.unavailable_error)))
   ∧ (∀ r0 now0,
        raised (Endpoints.get_crawl_results loads r0 now0 cache_down 10 "A" 0 100) = true))
  ∧ (let res := store_crawl_results dumps s cache_down 10 "A" five_items in
     returned res = Return ()
     ∧ is_Some (logged res)
     ∧ stored_runner res = s
     ∧ stored_redis res = cache_down)
  ∧ (∀ self item sp,
       let p := Pipelines.process_item dumps self item
                  {| Pipelines.stats := sp; Pipelines.task_id := Some "A" |} s cache_down 10 in
       Pipelines.result p = Return item
       ∧ Pipelines.processed_runner p = s
       ∧ Pipelines.processed_redis p = cache_down).
Proof.
  apply (cache_unavailable_behaviour dumps loads (runner (run dumps has_key launch_A world0))
           cache_down 10 "A" five_items 0 100).
  reflexivity.
Defined.

Lemma get_crawl_results_slice_witness :
  let r := Redis.Server true {["crawl_results:A" := Redis.Entry (Redis.VList five_items) None]} in
  let N := Z.of_nat (length five_items) in
  Endpoints.get_crawl_results loads r 10 r 11 "A" 2 2
  = Return {| Endpoints.task_id := "A";
              Endpoints.items := take (Z.to_nat 2) (drop (Z.to_nat 2) five_items);
              Endpoints.page := {| Endpoints.start := 2; Endpoints.limit := 2;
                                   Endpoints.total := N; Endpoints.has_more := 2 + 2 <? N |} |}
  ∧ (N ≤ 2 + 2 →
     (2 + 2 <? N) = false
     ∧ take (Z.to_nat 2) (drop (Z.to_nat 2) five_items) = drop (Z.to_nat 2) five_items)
  ∧ (∃ p1 p2,
       Endpoints.get_crawl_results loads r 10 r 11 "A" 0 10 = Return p1
       ∧ Endpoints.get_crawl_results loads r 10 r 11 "A" 10 10 = Return p2
       ∧ Endpoints.items p1 = take 10 five_items
       ∧ Endpoints.items p2 = take 10 (drop 10 five_items)
       ∧ Endpoints.items p1 ++ Endpoints.items p2 = take 20 five_items)
  ∧ (∀ r2 now2 stored2,
       Endpoints.shows "A" stored2 (r2, now2) →
       Endpoints.get_crawl_results loads r 10 r2 now2 "A" 2 2
       = Return {| Endpoints.task_id := "A";
                   Endpoints.items := take (Z.to_nat 2) (drop (Z.to_nat 2) five_items);
                   Endpoints.page :=
                     {| Endpoints.start := 2; Endpoints.limit := 2;
                        Endpoints.total := Z.of_nat (length stored2);
                        Endpoints.has_more := 2 + 2 <? Z.of_nat (length stored2) |} |}).
Proof.
  apply (get_crawl_results_slice loads
           (Redis.Server true {["crawl_results:A" := Redis.Entry (Redis.VList five_items) None]})
           10
           (Redis.Server true {["crawl_results:A" := Redis.Entry (Redis.VList five_items) None]})
           11 "A" five_items five_items 2 2).
  - split; [reflexivity|vm_compute; reflexivity].
  - split; [reflexivity|vm_compute; reflexivity].
  - vm_compute. reflexivity.
  - lia.
  - lia.
  - lia.
Defined.

(** C6 does not hold for every offset: the query start = 2^63-1, limit = 2
    is within the declared bounds, but LRANGE refuses the index 2^63 and the
    read is answered 500 instead of an empty page. *)
Lemma get_crawl_results_index_refused :
  let r := Redis.Server true {["crawl_results:A" := Redis.Entry (Redis.VList five_items) None]} in
  Endpoints.valid_query (2 ^ 63 - 1) 2 = true
  ∧ Endpoints.get_crawl_results loads r 10 r 11 "A" (2 ^ 63 - 1) 2
    = Raise (HTTPException 500
               ("获取结果失败: " +:+ "value is not an integer or out of range")).
Proof. split; vm_compute; reflexivity. Qed.



(** C8 does not hold for the ceiling 0: request number c+1, the very
    first, is admitted. *)
Lemma zero_ceiling_admits_first_request :
  let self := Dependencies.Limiter 0 in
  (Dependencies.serve self "10.0.0.1" [0] (Redis.Server true ∅)).1
    !! Z.to_nat (Dependencies.requests_per_minute self)
  = Some (Return ()).
Proof. vm_compute. reflexivity. Qed.

Lemma fixed_window_counter_witness :
  let self := Dependencies.Limiter 3 in
  ∃ os r',
    Dependencies.serve self "10.0.0.1" [0; 10; 20; 60] (Redis.Server true ∅) = (os, r')
    ∧ length os = 4%nat
    ∧ (∀ (i : nat) o, os !! i = Some o →
         o = if Z.of_nat i <? Dependencies.requests_per_minute self
             then Return () else Dependencies.rejection)
    ∧ (∀ t, t ≤ 0 + 60 →
         Dependencies.counter r' t "10.0.0.1"
         = Some (Z.min (Z.of_nat 4) (Dependencies.requests_per_minute self)))
    ∧ (∀ t, 0 + 60 < t →
         ∃ r'', Dependencies.__call__ self r' t "10.0.0.1" = (Return (), r'')
                ∧ Dependencies.counter r'' t "10.0.0.1" = Some 1).
Proof.
  apply (fixed_window_counter (Dependencies.Limiter 3) (Redis.Server true ∅) "10.0.0.1" 0
           [10; 20; 60]).
  - simpl. lia.
  - reflexivity.
  - vm_compute. reflexivity.
  - repeat constructor; lia.
Defined.

Lemma task_records_never_evicted_witness :
  let w := run dumps has_key launch_A world0 in
  is_Some (get_task_status (runner (run dumps has_key complete_A w)) "A")
  ∧ "A" ∈ dom (get_all_tasks (runner (run dumps has_key complete_A w)))
  ∧ (∀ (w0 : @world string Z) name kw now,
       is_Some (get_task_status
                  (runner (run dumps has_key complete_A (step dumps has_key (run_spider_ev "A" name kw now) w0))) "A"))
  ∧ (∀ r rnow batch l later,
       Redis.available r = true →
       Redis.list_at rnow r ("crawl_results:" +:+ "A") = Some l →
       is_Some (mapM dumps batch) →
       rnow + 3600 < later →
       let w1 := step dumps has_key (store_crawl_results_ev "A" batch rnow)
                   {| runner := runner (run dumps has_key complete_A w); redis := r |} in
       Redis.find later (redis w1) ("crawl_results:" +:+ "A") = None
       ∧ is_Some (get_task_status (runner w1) "A")).
Proof.
  apply (task_records_never_evicted dumps has_key (run dumps has_key launch_A world0) complete_A "A").
  eexists. vm_compute. reflexivity.
Defined.

(** ** Instances of the further properties *)

Lemma creation_fields_immutable_witness :
  ∃ t', get_task_status (runner (run dumps has_key complete_A (run dumps has_key launch_A world0))) "A" = Some t'
        ∧ spider_name t' = "s1" ∧ kwargs t' = "{}" ∧ start_time t' = 0 ∧ items t' = []
        ∧ (is_Some (@None Z) → is_Some (end_time t'))
        ∧ (is_Some (@None string) → is_Some (failure_reason t')).
Proof.
  apply (creation_fields_immutable dumps has_key (run dumps has_key launch_A world0) complete_A "A"
           (Task "s1" RUNNING "{}" 0 [] None None None)).
  - vm_compute. reflexivity.
  - repeat constructor.
Defined.

Lemma status_never_pending_witness :
  COMPLETED ≠ PENDING
  ∧ (COMPLETED = RUNNING ∨ COMPLETED = STOPPING ∨ COMPLETED = COMPLETED
     ∨ COMPLETED = FAILED ∨ COMPLETED = STOPPED).
Proof.
  apply (status_never_pending dumps has_key (Redis.Server true ∅) (launch_A ++ complete_A) "A"
           (Task "s1" COMPLETED "{}" 0 [] (Some 9) None None)).
  vm_compute. reflexivity.
Defined.

Lemma failure_reason_only_terminal_witness :
  terminal FAILED = true ∧ is_Some (Some 2).
Proof.
  apply (failure_reason_only_terminal dumps has_key (Redis.Server true ∅) fail_F "F"
           (Task "s1" FAILED "{}" 0 [] (Some 2) (Some "boom") None)).
  - vm_compute. reflexivity.
  - eexists. reflexivity.
Defined.

Lemma stopping_has_stop_in_flight_witness :
  let w := run dumps has_key stop_B world0 in
  "B" ∈ suspended_stops (runner w)
  ∧ ∀ teardown now,
      status_of (step dumps has_key (stop_resume_ev "B" teardown now) w) "B" = Some STOPPED.
Proof.
  apply (stopping_has_stop_in_flight dumps has_key (Redis.Server true ∅) stop_B "B"
           (Task "s1" STOPPING "{}" 0 [] None None None)).
  - vm_compute. reflexivity.
  - reflexivity.
Defined.

Lemma callback_then_update_witness :
  let w := run dumps has_key launch_A world0 in
  let t := Task "s1" RUNNING "{}" 0 ([] : list string) None None None in
  get_task_status (runner (run dumps has_key [spider_success_ev None "A"; loop_step_ev (Return ()) 9] w)) "A"
  = Some (set_end_time 9 (set_status COMPLETED t))
  ∧ get_task_status (runner (run dumps has_key [spider_error_ev "boom" "A"; loop_step_ev (Return ()) 9] w)) "A"
    = Some (if bool_decide ("boom" = "") then set_end_time 9 (set_status FAILED t)
            else set_failure_reason (Some "boom") (set_end_time 9 (set_status FAILED t)))
  ∧ ready (runner (run dumps has_key [spider_success_ev None "A"; loop_step_ev (Return ()) 9] w)) = []
  ∧ ready (runner (run dumps has_key [spider_error_ev "boom" "A"; loop_step_ev (Return ()) 9] w)) = [].
Proof.
  apply (callback_then_update dumps has_key (run dumps has_key launch_A world0) "A"
           (Task "s1" RUNNING "{}" 0 [] None None None) None "boom" (Return ()) 9).
  - vm_compute. reflexivity.
  - reflexivity.
  - vm_compute. reflexivity.
Defined.

Lemma launch_failure_recorded_witness :
  let w1 := step dumps has_key (run_spider_ev "L" "nope" "{}" 0) world0 in
  (run_spider has_key (runner world0) "L" "nope" "{}" 0).1 = Return "L"
  ∧ get_task_status (runner (step dumps has_key (loop_step_ev (Raise (Exception "Spider not found: nope")) 1) w1)) "L"
    = Some (let t := set_end_time 1 (set_status FAILED (fresh_task "nope" "{}" 0)) in
            if bool_decide (exn_str (Exception "Spider not found: nope") = "") then t
            else set_failure_reason (Some (exn_str (Exception "Spider not found: nope"))) t)
  ∧ get_task_status (runner (step dumps has_key (loop_step_ev (Return ()) 1) w1)) "L"
    = Some (fresh_task "nope" "{}" 0).
Proof.
  apply (launch_failure_recorded dumps has_key world0 "L" "nope" "{}"
           (Exception "Spider not found: nope") 0 1).
  - reflexivity.
  - reflexivity.
Defined.

Lemma store_for_unknown_task_witness :
  let res := store_crawl_results dumps (runner world0) (Redis.Server true ∅) 10 "ghost"
               five_items in
  returned res = Return ()
  ∧ is_Some (logged res)
  ∧ stored_runner res = runner world0
  ∧ Redis.list_at 10 (stored_redis res) ("crawl_results:" +:+ "ghost") = Some ([] ++ five_items).
Proof.
  apply (store_for_unknown_task dumps (runner world0) (Redis.Server true ∅) 10 "ghost"
           five_items five_items []).
  - reflexivity.
  - vm_compute. reflexivity.
  - vm_compute. reflexivity.
  - vm_compute. reflexivity.
Defined.

Lemma read_after_store_witness :
  let r' := stored_redis (store_crawl_results dumps (runner (run dumps has_key launch_A world0))
                            (Redis.Server true ∅) 10 "A" five_items) in
  Endpoints.get_crawl_results loads r' 20 r' 3610 "A" 0 100
  = Return {| Endpoints.task_id := "A";
              Endpoints.items := take (Z.to_nat 100) (drop (Z.to_nat 0) ([] ++ five_items));
              Endpoints.page :=
                {| Endpoints.start := 0; Endpoints.limit := 100;
                   Endpoints.total := Z.of_nat (length (@nil string) + length five_items);
                   Endpoints.has_more :=
                     0 + 100 <? Z.of_nat (length (@nil string) + length five_items) |} |}.
Proof.
  apply (read_after_store dumps loads (runner (run dumps has_key launch_A world0))
           (Redis.Server true ∅) 10 20 3610 "A" five_items five_items [] [] 0 100).
  - intros x p [= <-]. reflexivity.
  - split; [reflexivity|vm_compute; reflexivity].
  - vm_compute. reflexivity.
  - vm_compute. reflexivity.
  - lia.
  - lia.
  - lia.
  - lia.
  - lia.
  - lia.
Defined.

Lemma results_of_missing_key_witness :
  (0 + 100 - 1 < 2 ^ 63 →
   Endpoints.get_crawl_results loads (Redis.Server true ∅) 10 (Redis.Server true ∅) 11
     "nope" 0 100
   = Return {| Endpoints.task_id := "nope"; Endpoints.items := [];
               Endpoints.page := {| Endpoints.start := 0; Endpoints.limit := 100;
                                    Endpoints.total := 0; Endpoints.has_more := false |} |})
  ∧ (2 ^ 63 ≤ 0 + 100 - 1 →
     Endpoints.get_crawl_results loads (Redis.Server true ∅) 10 (Redis.Server true ∅) 11
       "nope" 0 100
     = Raise (HTTPException 500 ("获取结果失败: " +:+ exn_str Redis.not_an_integer_error))).
Proof.
  apply (results_of_missing_key loads (Redis.Server true ∅) 10 (Redis.Server true ∅) 11
           "nope" 0 100).
  - reflexivity.
  - reflexivity.
  - vm_compute. reflexivity.
  - vm_compute. reflexivity.
  - reflexivity.
Defined.

Lemma adjacent_pages_witness :
  let r := Redis.Server true {["crawl_results:A" := Redis.Entry (Redis.VList five_items) None]} in
  ∃ p1 p2,
    Endpoints.get_crawl_results loads r 10 r 11 "A" 1 2 = Return p1
    ∧ Endpoints.get_crawl_results loads r 12 r 13 "A" (1 + 2) 3 = Return p2
    ∧ Endpoints.items p1 ++ Endpoints.items p2
      = take (Z.to_nat (2 + 3)) (drop (Z.to_nat 1) five_items)
    ∧ (Endpoints.has_more (Endpoints.page p1) = true ↔ Endpoints.items p2 ≠ [])
    ∧ (Endpoints.has_more (Endpoints.page p1) = false →
       Endpoints.items p1 = drop (Z.to_nat 1) five_items).
Proof.
  apply (adjacent_pages loads
           (Redis.Server true {["crawl_results:A" := Redis.Entry (Redis.VList five_items) None]}, 10)
           (Redis.Server true {["crawl_results:A" := Redis.Entry (Redis.VList five_items) None]}, 11)
           (Redis.Server true {["crawl_results:A" := Redis.Entry (Redis.VList five_items) None]}, 12)
           (Redis.Server true {["crawl_results:A" := Redis.Entry (Redis.VList five_items) None]}, 13)
           "A" five_items five_items 1 2 3).
  - repeat (constructor; [split; [reflexivity|vm_compute; reflexivity]|]). constructor.
  - vm_compute. reflexivity.
  - lia.
  - lia.
  - lia.
  - lia.
Defined.

Lemma window_edge_burst_witness :
  let self := Dependencies.Limiter 3 in
  let n := Z.to_nat (Dependencies.requests_per_minute self - 1) in
  (Dependencies.serve self "10.0.0.1"
     (0 :: replicate n 60 ++ 61 :: replicate n 61) (Redis.Server true ∅)).1
  = replicate (S n + S n) (Return ()).
Proof.
  apply (window_edge_burst (Dependencies.Limiter 3) (Redis.Server true ∅) "10.0.0.1" 0 60 61).
  - simpl. lia.
  - reflexivity.
  - vm_compute. reflexivity.
  - lia.
  - lia.
Defined.

Lemma duplicates_compare_url_and_title_witness :
  let self1 := (ItemPipelines.DuplicatesPipeline.process_item digest
                  ItemPipelines.DuplicatesPipeline.init item_one).2 in
  (ItemPipelines.DuplicatesPipeline.process_item digest self1 item_one_again).1
  = Raise (DropItem ("重复项目: "
                     +:+ ItemPipelines.py_str
                           (ItemPipelines.get item_one_again "url" ItemPipelines.PyNone)))
  ∧ (ItemPipelines.DuplicatesPipeline.process_item digest self1 item_one_again).2 = self1.
Proof.
  apply (duplicates_compare_url_and_title digest ItemPipelines.DuplicatesPipeline.init
           item_one item_one_again).
  - vm_compute. reflexivity.
  - vm_compute. reflexivity.
Defined.


(** An item that [json.dumps] refuses is counted as stored and handed on,
    but does not reach the cache. *)
Example unserializable_item_counted_not_stored :
  let res := ItemPipelines.process_items digest dumps_plain chain0 [item_one; item_set] 10 in
  res.1 = [Return item_one; Return item_set]
  ∧ Pipelines.stored_count (ItemPipelines.storage res.2) = 2%nat
  ∧ Redis.list_at 10 (ItemPipelines.chain_redis res.2) "crawl_results:A"
    = Some ["http://a.example/1"].
Proof. repeat split; vm_compute; reflexivity. Qed.

(** A task that completes while [get_metrics] waits for [redis.info()] is
    reported both as running and as completed: the three counts add up to
    more than [active_tasks]. *)
Example metrics_count_a_task_twice :
  let w := run dumps has_key launch_A world0 in
  let m := Monitoring.application_metrics (runner w)
             (runner (run dumps has_key complete_A w)) in
  Monitoring.active_tasks m = 1%nat
  ∧ Monitoring.running_tasks m = 1%nat
  ∧ Monitoring.completed_tasks m = 1%nat
  ∧ Monitoring.failed_tasks m = 0%nat.
Proof. repeat split; vm_compute; reflexivity. Qed.


Lemma ceiling_below_one_witness :
  let self := Dependencies.Limiter 0 in
  (Dependencies.serve self "10.0.0.1" [0; 10; 20] (Redis.Server true ∅)).1
  = Return () :: replicate (length [10; 20]) Dependencies.rejection
  ∧ ∀ t, t < 0 + 60 →
         Dependencies.counter
           (Dependencies.serve self "10.0.0.1" [0; 10; 20] (Redis.Server true ∅)).2 t "10.0.0.1"
         = Some 1.
Proof.
  apply (ceiling_below_one (Dependencies.Limiter 0) (Redis.Server true ∅) "10.0.0.1" 0 [10; 20]).
  - simpl. lia.
  - reflexivity.
  - vm_compute. reflexivity.
  - repeat constructor; lia.
Defined.

Lemma queued_update_overrides_stop_witness :
  let w1 := step dumps has_key (spider_success_ev None "A") (run dumps has_key launch_A world0) in
  (stop_task (runner w1) [] "A" 2).1 = Finished true
  ∧ status_of (step dumps has_key (stop_task_ev [] "A" 2) w1) "A" = Some STOPPED
  ∧ status_of (run dumps has_key [stop_task_ev [] "A" 2; loop_step_ev (Return ()) 3] w1) "A"
    = Some COMPLETED.
Proof.
  apply (queued_update_overrides_stop dumps has_key (run dumps has_key launch_A world0) "A"
           (Task "s1" RUNNING "{}" 0 [] None None None) None [] (Return ()) 2 3).
  - vm_compute. reflexivity.
  - reflexivity.
  - vm_compute. reflexivity.
  - reflexivity.
Defined.

End Scenarios.
